(** * CitrineOS core: the transactions module and the security-event repository

    A shallow embedding of
    - [TransactionsModule] (the TransactionEvent and MeterValues handlers,
      the cost calculator [_calculateTotalCost], [_roundCost] and the
      periodic cost updater [_updateCost]);
    - [SecurityEventRepository] ([generateTimestampQuery] and
      [readByStationIdAndTimestamps]).

    The handlers are written in a small command monad: every repository,
    service, logger, sender and timer call of the TypeScript source is one
    command, and [run] executes a program against a [World] that holds the
    tables, the log, the outbox and the armed timers. *)

From Stdlib Require Import ZArith List String Ascii Bool Lia Permutation.
From Stdlib Require Import Floats.SpecFloat.
Import ListNotations.
Open Scope string_scope.
Open Scope list_scope.
Open Scope Z_scope.

(** ** JavaScript numbers

    A JS [number] is an IEEE 754 binary64 value; arithmetic rounds to
    nearest, ties to even.  [spec_float] with [prec = 53], [emax = 1024] is
    exactly that format. *)
Module JsNumber.

Definition number : Type := spec_float.

Definition prec : Z := 53.
Definition emax : Z := 1024.

Definition mul (x y : number) : number := SFmul prec emax x y.
Definition div (x y : number) : number := SFdiv prec emax x y.
Definition add (x y : number) : number := SFadd prec emax x y.

(** The number denoted by an integer literal. *)
Definition ofZ (n : Z) : number := binary_normalize prec emax n 0 false.

(** The number denoted by the decimal literal [digits / 10^scale]
    ([decimal 12378 4] is the literal [1.2378]): the binary64 value
    nearest to the quotient, which a correctly rounded division of the two
    exactly representable integers yields. *)
Definition decimal (digits : Z) (scale : nat) : number :=
  div (ofZ digits) (ofZ (10 ^ Z.of_nat scale)).

(** [Math.floor]: NaN, the infinities and the zeros are returned as they
    are, and so is a finite value with no fractional bits. *)
Definition floor (x : number) : number :=
  match x with
  | S754_finite s m e =>
      if 0 <=? e then x
      else match Z.shiftr (cond_Zopp s (Zpos m)) (- e) with
           | Z0 => S754_zero s
           | n => ofZ n
           end
  | _ => x
  end.

(** [ToBoolean] on a number: [0], [-0] and [NaN] are falsy. *)
Definition truthy (x : number) : bool :=
  match x with
  | S754_zero _ | S754_nan => false
  | _ => true
  end.

Definition ltb (x y : number) : bool := SFltb x y.

(** A zero or a finite number, as opposed to NaN and the infinities. *)
Definition isFinite (x : number) : bool :=
  match x with
  | S754_zero _ | S754_finite _ _ _ => true
  | _ => false
  end.

(** [n] is the greatest integer that is not above the value
    [(-1)^s * m * 2^e] of [x]. *)
Definition isFloorOf (n : Z) (x : number) : Prop :=
  match x with
  | S754_zero _ => n = 0
  | S754_finite s m e =>
      if 0 <=? e then n = cond_Zopp s (Zpos m) * 2 ^ e
      else n * 2 ^ (- e) <= cond_Zopp s (Zpos m) < (n + 1) * 2 ^ (- e)
  | _ => False
  end.

(** [n] is the greatest integer that is not above [k] times the value of
    [x], in exact arithmetic. *)
Definition isFloorOfTimes (k n : Z) (x : number) : Prop :=
  match x with
  | S754_zero _ => n = 0
  | S754_finite s m e =>
      if 0 <=? e then n = k * cond_Zopp s (Zpos m) * 2 ^ e
      else n * 2 ^ (- e) <= k * cond_Zopp s (Zpos m) < (n + 1) * 2 ^ (- e)
  | _ => False
  end.

(** The integer a finite number denotes, when it denotes one. *)
Definition toZ (x : number) : option Z :=
  match x with
  | S754_zero _ => Some 0
  | S754_finite s m e =>
      if 0 <=? e then Some (cond_Zopp s (Zpos m * 2 ^ e))
      else if Zpos m mod 2 ^ (- e) =? 0
           then Some (cond_Zopp s (Zpos m / 2 ^ (- e)))
           else None
  | _ => None
  end.

End JsNumber.

(** ** Truthiness of the other JS values the handlers test *)
Module Js.

(** A string is falsy exactly when it is empty. *)
Definition truthyString (s : string) : bool :=
  match s with
  | EmptyString => false
  | String _ _ => true
  end.

(** An optional integer field ([number | null | undefined] holding an
    integer): absent and [0] are falsy. *)
Definition truthyInt (n : option Z) : bool :=
  match n with
  | Some v => negb (v =? 0)
  | None => false
  end.

(** An optional number: absent, [0], [-0] and [NaN] are falsy. *)
Definition truthyNumber (n : option JsNumber.number) : bool :=
  match n with
  | Some v => JsNumber.truthy v
  | None => false
  end.

(** An optional boolean: absent and [false] are falsy. *)
Definition truthyBool (b : option bool) : bool :=
  match b with
  | Some v => v
  | None => false
  end.


End Js.

(** ** OCPP messages and the persisted entities *)
Module Ocpp.
Import JsNumber.

Inductive TransactionEventEnumType : Type := Ended | Started | Updated.

Inductive AuthorizationStatusEnumType : Type :=
| Accepted | Blocked | ConcurrentTx | Expired | Invalid | NoCredit
| NotAllowedTypeEVSE | NotAtThisLocation | NotAtThisTime | Unknown.

Inductive ErrorCode : Type :=
| FormatViolation | GenericError | InternalError | MessageTypeNotSupported
| NotImplemented | NotSupported | OccurrenceConstraintViolation
| PropertyConstraintViolation | ProtocolError | RpcFrameworkError
| SecurityError | TypeConstraintViolation.

Inductive AttributeEnumType : Type := Actual | Target | MinSet | MaxSet.

Definition eventTypeEqb (a b : TransactionEventEnumType) : bool :=
  match a, b with
  | Ended, Ended | Started, Started | Updated, Updated => true
  | _, _ => false
  end.

(** [status === AuthorizationStatusEnumType.Accepted] on the optional
    chain [response.idTokenInfo?.status]. *)
Definition isAccepted (s : option AuthorizationStatusEnumType) : bool :=
  match s with
  | Some Accepted => true
  | _ => false
  end.

Definition attributeEqb (a b : AttributeEnumType) : bool :=
  match a, b with
  | Actual, Actual | Target, Target | MinSet, MinSet | MaxSet, MaxSet => true
  | _, _ => false
  end.

Record SampledValueType : Type := {
  sv_value : number;
  sv_measurand : option string;
  sv_signedMeterData : option string
}.

Record MeterValueType : Type := {
  mv_timestamp : string;
  mv_sampledValue : list SampledValueType
}.

Record IdTokenType : Type := {
  tok_idToken : string;
  tok_type : string
}.

Record TransactionType : Type := {
  transactionId : string
}.

Record TransactionEventRequest : Type := {
  eventType : TransactionEventEnumType;
  ev_timestamp : string;
  seqNo : Z;
  transactionInfo : TransactionType;
  idToken : option IdTokenType;
  reservationId : option Z;
  meterValue : option (list MeterValueType)
}.

Record IdTokenInfoType : Type := {
  status : AuthorizationStatusEnumType
}.

Record TransactionEventResponse : Type := {
  totalCost : option number;
  chargingPriority : option Z;
  idTokenInfo : option IdTokenInfoType
}.

Record MeterValuesRequest : Type := {
  mvr_evseId : Z;
  mvr_meterValue : list MeterValueType
}.

Record CostUpdatedRequest : Type := {
  cu_totalCost : number;
  cu_transactionId : string
}.

Record MessageContext : Type := {
  stationId : string;
  tenantId : string;
  correlationId : string
}.

Record IMessage (P : Type) : Type := {
  context : MessageContext;
  payload : P
}.
Arguments context {P} _.
Arguments payload {P} _.

(** Rows of the tables the module reads and writes. *)
Record Transaction : Type := {
  tx_id : Z;
  tx_stationId : string;
  tx_transactionId : string;
  tx_isActive : bool;
  tx_totalKwh : option number
}.

Record Tariff : Type := {
  tariff_id : Z;
  tariff_stationId : string;
  pricePerKwh : number
}.

Record Reservation : Type := {
  res_id : Z;
  res_stationId : string;
  res_isActive : bool;
  res_terminatedByTransaction : option string
}.

Record MeterValueRow : Type := {
  row_transactionDatabaseId : option Z;
  row_meterValue : MeterValueType
}.

Record VariableAttribute : Type := {
  va_stationId : string;
  va_component_name : string;
  va_variable_instance : string;
  va_variable_name : string;
  va_type : AttributeEnumType;
  va_value : option string
}.

End Ocpp.

(** ** The meter-value utility *)
Module MeterValueUtils.
Import JsNumber Ocpp.

(** Modelled from the spec: [MeterValueUtils.getTotalKwh], which is not in
    the sources.  The total is derived "by summing/reducing all meter
    values recorded against the transaction": the sum, from 0 and in the
    order given, of the sampled values of the meter values. *)
Definition getTotalKwh (values : list MeterValueType) : number :=
  fold_left
    (fun total v =>
       fold_left (fun t s => add t (sv_value s)) (mv_sampledValue v) total)
    values (ofZ 0).

End MeterValueUtils.

(** ** The transactions module *)
Module TransactionsModule.
Import JsNumber Ocpp.

(** *** What the handlers can observe and change *)

Inductive LogLevel : Type := Debug | Info | Warn | Error.

(** The arguments of a logger call, and the pieces of a template string. *)
Inductive LogArg : Type :=
| Text (s : string)
| Num (n : number)
| Int (z : Z)
| TransactionEventMessage (m : IMessage TransactionEventRequest)
| MeterValuesMessage (m : IMessage MeterValuesRequest).

Inductive CallResultPayload : Type :=
| TransactionEventResult (r : TransactionEventResponse)
| MeterValuesResult.

Inductive Outbound : Type :=
| CallResult (ctx : MessageContext) (r : CallResultPayload)
| CallCostUpdated (station tenant : string) (request : CostUpdatedRequest).

Inductive Exception : Type :=
| OcppError (correlation : string) (code : ErrorCode) (message : string)
| RepositoryError (what : string).

(** How the promise of a call settles when the call is not awaited where it
    is made: fulfilled, or rejected with a reason at some time. *)
Inductive Settlement : Type :=
| Fulfilled
| Rejected (reason : Exception) (time : Z).

(** The closure [setInterval] is given by [_updateCost]: the captured
    arguments and the delay in milliseconds. *)
Record Timer : Type := {
  timer_stationId : string;
  timer_transactionId : string;
  timer_tenantId : string;
  timer_delay : number
}.

Record VariableAttributeQuerystring : Type := {
  q_stationId : string;
  q_component_name : string;
  q_variable_instance : string;
  q_variable_name : string;
  q_type : AttributeEnumType
}.

(** One constructor per call the module makes outside itself; the index
    is the type of the value the call gives back. *)
Inductive Cmd : Type -> Type :=
| Log (level : LogLevel) (args : list LogArg) : Cmd unit
| CreateOrUpdateTransactionByTransactionEventAndStationId
    (value : TransactionEventRequest) (station : string) : Cmd unit
| ReservationUpdateAllByQuery
    (terminatedByTransaction : string) (isActive : bool)
    (whereId : Z) (whereStationId : string) : Cmd unit
| AuthorizeIdToken
    (event : TransactionEventRequest) (ctx : MessageContext)
  : Cmd TransactionEventResponse
| SendCallResultWithMessage
    (ctx : MessageContext) (response : CallResultPayload)
    (onSent : LogLevel * list LogArg) : Cmd unit
| SendCall (station tenant : string) (request : CostUpdatedRequest)
    (onSent : LogLevel * list LogArg) : Cmd unit
| SetInterval (t : Timer) : Cmd unit
| ReadTransactionByStationIdAndTransactionId
    (station transaction : string) : Cmd (option Transaction)
| FindByStationId (station : string) : Cmd (option Tariff)
| ReadAllMeterValuesByTransactionDataBaseId (transactionDbId : Z)
  : Cmd (list MeterValueType)
| GetTotalKwh (values : list MeterValueType) : Cmd number
| TransactionUpdate (totalKwh : number) (whereId : Z) : Cmd unit
| ReadAllByQuerystring (q : VariableAttributeQuerystring)
  : Cmd (list VariableAttribute)
| ValidateMeterValues (station : string) (values : list MeterValueType)
  : Cmd bool
| CreateMeterValue (value : MeterValueType) : Cmd Settlement.

Inductive Call : Type :=
| Called {X : Type} (c : Cmd X).

Record World : Type := {
  transactions : list Transaction;
  transactionEvents : list (string * TransactionEventRequest);
  meterValues : list MeterValueRow;
  tariffs : list Tariff;
  reservations : list Reservation;
  variableAttributes : list VariableAttribute;
  logs : list (LogLevel * list LogArg);
  sent : list Outbound;
  timers : list Timer;
  trace : list Call
}.

Definition setTransactions (v : list Transaction) (w : World) : World :=
  {| transactions := v; transactionEvents := transactionEvents w;
     meterValues := meterValues w; tariffs := tariffs w;
     reservations := reservations w;
     variableAttributes := variableAttributes w; logs := logs w;
     sent := sent w; timers := timers w; trace := trace w |}.

Definition setTransactionEvents
    (v : list (string * TransactionEventRequest)) (w : World) : World :=
  {| transactions := transactions w; transactionEvents := v;
     meterValues := meterValues w; tariffs := tariffs w;
     reservations := reservations w;
     variableAttributes := variableAttributes w; logs := logs w;
     sent := sent w; timers := timers w; trace := trace w |}.

Definition setMeterValues (v : list MeterValueRow) (w : World) : World :=
  {| transactions := transactions w;
     transactionEvents := transactionEvents w;
     meterValues := v; tariffs := tariffs w;
     reservations := reservations w;
     variableAttributes := variableAttributes w; logs := logs w;
     sent := sent w; timers := timers w; trace := trace w |}.

Definition setReservations (v : list Reservation) (w : World) : World :=
  {| transactions := transactions w;
     transactionEvents := transactionEvents w;
     meterValues := meterValues w; tariffs := tariffs w;
     reservations := v;
     variableAttributes := variableAttributes w; logs := logs w;
     sent := sent w; timers := timers w; trace := trace w |}.

Definition setLogs (v : list (LogLevel * list LogArg)) (w : World)
  : World :=
  {| transactions := transactions w;
     transactionEvents := transactionEvents w;
     meterValues := meterValues w; tariffs := tariffs w;
     reservations := reservations w;
     variableAttributes := variableAttributes w; logs := v;
     sent := sent w; timers := timers w; trace := trace w |}.

Definition setSent (v : list Outbound) (w : World) : World :=
  {| transactions := transactions w;
     transactionEvents := transactionEvents w;
     meterValues := meterValues w; tariffs := tariffs w;
     reservations := reservations w;
     variableAttributes := variableAttributes w; logs := logs w;
     sent := v; timers := timers w; trace := trace w |}.

Definition setTimers (v : list Timer) (w : World) : World :=
  {| transactions := transactions w;
     transactionEvents := transactionEvents w;
     meterValues := meterValues w; tariffs := tariffs w;
     reservations := reservations w;
     variableAttributes := variableAttributes w; logs := logs w;
     sent := sent w; timers := v; trace := trace w |}.

Definition setTrace (v : list Call) (w : World) : World :=
  {| transactions := transactions w;
     transactionEvents := transactionEvents w;
     meterValues := meterValues w; tariffs := tariffs w;
     reservations := reservations w;
     variableAttributes := variableAttributes w; logs := logs w;
     sent := sent w; timers := timers w; trace := v |}.

(** The code the module calls but does not contain: the transaction-table
    part of the repository's create-or-update, the authorization service,
    the signature check of one meter value, the energy total of
    [MeterValueUtils], the failures of calls, and the time at which a call
    that fails does so. *)
Record Environment : Type := {
  upsertTransaction :
    TransactionEventRequest -> string -> list Transaction ->
    list Transaction;
  authorizeIdToken :
    TransactionEventRequest -> MessageContext -> World ->
    TransactionEventResponse;
  signatureValid : string -> MeterValueType -> bool;
  getTotalKwh : list MeterValueType -> number;
  fault : forall X : Type, Cmd X -> World -> option Exception;
  rejectedAt : forall X : Type, Cmd X -> World -> Z
}.

(** An environment in which no call fails. *)
Definition reliable (env : Environment) : Prop :=
  forall (X : Type) (c : Cmd X) (w : World), fault env X c w = None.

(** *** Programs *)

Inductive Prog (R : Type) : Type :=
| Ret (r : R)
| Throw (e : Exception)
| Do {X : Type} (c : Cmd X) (k : X -> Prog R).
Arguments Ret {R} r.
Arguments Throw {R} e.
Arguments Do {R X} c k.

Fixpoint bind {A B : Type} (p : Prog A) (f : A -> Prog B) : Prog B :=
  match p with
  | Ret a => f a
  | Throw e => Throw e
  | Do c k => Do c (fun x => bind (k x) f)
  end.

Definition call {X : Type} (c : Cmd X) : Prog X := Do c Ret.

Declare Scope prog_scope.
Delimit Scope prog_scope with prog.
Notation "x <- p ;; q" := (bind p (fun x => q))
  (at level 61, p at next level, right associativity) : prog_scope.
Notation "p ;; q" := (bind p (fun _ => q))
  (at level 61, right associativity) : prog_scope.
Open Scope prog_scope.

(** [values.map(f)] for an [f] that makes a call and gives back its
    promise: [f] is called on every element, in order, whatever the calls
    before it gave, and the promises are collected. *)
Fixpoint arrayMap {A X : Type} (f : A -> Prog X) (l : list A)
  : Prog (list X) :=
  match l with
  | [] => Ret []
  | a :: l' => x <- f a ;; xs <- arrayMap f l' ;; Ret (x :: xs)
  end.

(** The rejection that comes first in time; of two at the same time, the
    one of the earlier promise. *)
Fixpoint firstRejected (promises : list Settlement)
  : option (Exception * Z) :=
  match promises with
  | [] => None
  | Fulfilled :: rest => firstRejected rest
  | Rejected reason time :: rest =>
      match firstRejected rest with
      | Some (reason', time') =>
          if time' <? time then Some (reason', time')
          else Some (reason, time)
      | None => Some (reason, time)
      end
  end.

(** [await Promise.all(promises)]: fulfilled when every promise is, and
    otherwise rejected with the reason of the promise that is rejected
    first.  The calls behind the other promises have been made all the same
    and are not undone. *)
Definition promiseAll (promises : list Settlement) : Prog unit :=
  match firstRejected promises with
  | Some (reason, _) => Throw reason
  | None => Ret tt
  end.

(** *** The tables *)

Definition matchesTransaction (station transaction : string)
    (t : Transaction) : bool :=
  String.eqb (tx_stationId t) station
  && String.eqb (tx_transactionId t) transaction.

(** Modelled from the spec: the transaction-event store's "read by
    station+transaction id". *)
Definition readTransactionByStationIdAndTransactionId
    (station transaction : string) (w : World) : option Transaction :=
  find (matchesTransaction station transaction) (transactions w).

Definition rowsOf (dbId : option Z) (values : list MeterValueType)
  : list MeterValueRow :=
  map (fun v => {| row_transactionDatabaseId := dbId;
                   row_meterValue := v |}) values.

(** Modelled from the spec: the transaction-event store's "create-or-update
    by station+transaction id".  The event is appended to the append-only
    event table, its meter values are attached to the transaction by the
    transaction's database id, and the transaction table is changed as the
    repository decides ([upsertTransaction]). *)
Definition createOrUpdateTransactionByTransactionEventAndStationId
    (env : Environment) (value : TransactionEventRequest)
    (station : string) (w : World) : World :=
  let txs := upsertTransaction env value station (transactions w) in
  let dbId :=
    option_map tx_id
      (find (matchesTransaction station
               (transactionId (transactionInfo value))) txs) in
  let rows :=
    match meterValue value with
    | Some values => rowsOf dbId values
    | None => []
    end in
  setMeterValues (meterValues w ++ rows)
    (setTransactionEvents (transactionEvents w ++ [(station, value)])
       (setTransactions txs w)).

(** Modelled from the spec: the reservation store's "conditional bulk
    update by id+station": every row the [where] clause selects gets the
    two fields, every other row is left as it is. *)
Definition reservationUpdateAllByQuery
    (terminatedByTransaction : string) (isActive : bool)
    (whereId : Z) (whereStationId : string)
    (rs : list Reservation) : list Reservation :=
  map (fun r =>
         if (res_id r =? whereId)
            && String.eqb (res_stationId r) whereStationId
         then {| res_id := res_id r;
                 res_stationId := res_stationId r;
                 res_isActive := isActive;
                 res_terminatedByTransaction :=
                   Some terminatedByTransaction |}
         else r) rs.

(** Modelled from the spec: the tariff store's "find active tariff by
    station id", with none found as a valid outcome. *)
Definition findByStationId (station : string) (w : World)
  : option Tariff :=
  find (fun t => String.eqb (tariff_stationId t) station) (tariffs w).

(** Modelled from the spec: the meter values "attached to a transaction
    via its database id". *)
Definition readAllMeterValuesByTransactionDataBaseId
    (transactionDbId : Z) (w : World) : list MeterValueType :=
  map row_meterValue
    (filter (fun r =>
               match row_transactionDatabaseId r with
               | Some i => i =? transactionDbId
               | None => false
               end) (meterValues w)).

(** [Transaction.update({ totalKwh }, { where: { id } })]. *)
Definition transactionUpdate (totalKwh : number) (whereId : Z)
    (txs : list Transaction) : list Transaction :=
  map (fun t =>
         if tx_id t =? whereId
         then {| tx_id := tx_id t;
                 tx_stationId := tx_stationId t;
                 tx_transactionId := tx_transactionId t;
                 tx_isActive := tx_isActive t;
                 tx_totalKwh := Some totalKwh |}
         else t) txs.

(** Modelled from the spec: the device-model store's "read device model
    attributes by station+component+variable". *)
Definition readAllByQuerystring (q : VariableAttributeQuerystring)
    (w : World) : list VariableAttribute :=
  filter (fun a =>
            String.eqb (va_stationId a) (q_stationId q)
            && String.eqb (va_component_name a) (q_component_name q)
            && String.eqb (va_variable_instance a) (q_variable_instance q)
            && String.eqb (va_variable_name a) (q_variable_name q)
            && attributeEqb (va_type a) (q_type q))
         (variableAttributes w).

(** Modelled from the spec: the signed-meter-value validator, "any invalid
    signature in the batch yields an overall invalid result". *)
Definition validateMeterValues (env : Environment) (station : string)
    (values : list MeterValueType) : bool :=
  forallb (signatureValid env station) values.

(** Modelled from the spec: the transaction-event store's "append meter
    value"; the handler passes the value alone.  The table lists its rows
    in the order in which their inserts were issued; the order in which the
    database completes them is not represented. *)
Definition createMeterValue (value : MeterValueType) (w : World) : World :=
  setMeterValues (meterValues w ++ rowsOf None [value]) w.

(** *** Running a program *)

Definition exec (env : Environment) {X : Type} (c : Cmd X) (w : World)
  : X * World :=
  match c in Cmd T return T * World with
  | Log level args => (tt, setLogs (logs w ++ [(level, args)]) w)
  | CreateOrUpdateTransactionByTransactionEventAndStationId value station =>
      (tt, createOrUpdateTransactionByTransactionEventAndStationId
             env value station w)
  | ReservationUpdateAllByQuery tid act rid station =>
      (tt, setReservations
             (reservationUpdateAllByQuery tid act rid station
                (reservations w)) w)
  | AuthorizeIdToken event ctx => (authorizeIdToken env event ctx w, w)
  | SendCallResultWithMessage ctx response _ =>
      (tt, setSent (sent w ++ [CallResult ctx response]) w)
  | SendCall station tenant request _ =>
      (tt, setSent (sent w ++ [CallCostUpdated station tenant request]) w)
  | SetInterval t => (tt, setTimers (timers w ++ [t]) w)
  | ReadTransactionByStationIdAndTransactionId station transaction =>
      (readTransactionByStationIdAndTransactionId station transaction w, w)
  | FindByStationId station => (findByStationId station w, w)
  | ReadAllMeterValuesByTransactionDataBaseId i =>
      (readAllMeterValuesByTransactionDataBaseId i w, w)
  | GetTotalKwh values => (getTotalKwh env values, w)
  | TransactionUpdate totalKwh whereId =>
      (tt, setTransactions
             (transactionUpdate totalKwh whereId (transactions w)) w)
  | ReadAllByQuerystring q => (readAllByQuerystring q w, w)
  | ValidateMeterValues station values =>
      (validateMeterValues env station values, w)
  | CreateMeterValue value =>
      match fault env _ (CreateMeterValue value) w with
      | Some reason =>
          (Rejected reason (rejectedAt env _ (CreateMeterValue value) w), w)
      | None => (Fulfilled, createMeterValue value w)
      end
  end.

(** The calls the source awaits where it makes them: a failure of one of
    them is thrown into the handler there.  The logger, [setInterval], the
    synchronous utility and the two sends are not awaited; a send's promise
    is only given a [then] callback, which writes the [onSent] line once
    the transport confirms, after the handler has gone on.  The promise of
    [createMeterValue] is collected by [map]: the call gives back how it
    settles, and the handler learns of a failure through [Promise.all]. *)
Definition awaited {X : Type} (c : Cmd X) : bool :=
  match c with
  | Log _ _ | SendCallResultWithMessage _ _ _ | SendCall _ _ _ _
  | SetInterval _ | GetTotalKwh _ | CreateMeterValue _ => false
  | _ => true
  end.

Definition Outcome (R : Type) : Type := (Exception + R)%type.

(** Every call is entered in the trace when it is made; a call that fails
    changes nothing, and throws when it is awaited where it is made. *)
Fixpoint run (env : Environment) {R : Type} (p : Prog R) (w : World)
  : World * Outcome R :=
  match p with
  | Ret r => (w, inr r)
  | Throw e => (w, inl e)
  | Do c k =>
      let w1 := setTrace (trace w ++ [Called c]) w in
      match (if awaited c then fault env _ c w1 else None) with
      | Some e => (w1, inl e)
      | None => let (x, w2) := exec env c w1 in run env (k x) w2
      end
  end.

(** *** The module's own code *)

(** The two configuration fields the handlers read. *)
Record This : Type := {
  _sendCostUpdatedOnMeterValue : option bool;
  _costUpdatedInterval : option number
}.

Definition _roundCost (cost : number) : number :=
  div (floor (mul cost (ofZ 100))) (ofZ 100).

Definition _calculateTotalCost (station : string) (transactionDbId : Z)
    (totalKwh : option number) : Prog number :=
  tariff <- call (FindByStationId station) ;;
  match tariff with
  | Some tariff =>
      call (Log Debug [Text "Tariff "; Int (tariff_id tariff);
                       Text " found for station "; Text station]) ;;
      let derive :=
        values <-
          call (ReadAllMeterValuesByTransactionDataBaseId transactionDbId) ;;
        derived <- call (GetTotalKwh values) ;;
        call (TransactionUpdate derived transactionDbId) ;;
        Ret derived in
      kwh <- match totalKwh with
             | Some supplied =>
                 if negb (truthy supplied) then derive else Ret supplied
             | None => derive
             end ;;
      call (Log Debug [Text "TotalKwh: "; Num kwh]) ;;
      Ret (_roundCost (mul kwh (pricePerKwh tariff)))
  | None =>
      call (Log Error [Text "Tariff not found for station ";
                       Text station]) ;;
      Ret (ofZ 0)
  end.

Definition _updateCost (station transaction : string)
    (costUpdatedInterval : number) (tenant : string) : Prog unit :=
  call (SetInterval
          {| timer_stationId := station;
             timer_transactionId := transaction;
             timer_tenantId := tenant;
             timer_delay := mul costUpdatedInterval (ofZ 1000) |}).

(** The callback [_updateCost] hands to [setInterval]: one tick. *)
Definition costUpdatedTick (t : Timer) : Prog unit :=
  transaction <-
    call (ReadTransactionByStationIdAndTransactionId
            (timer_stationId t) (timer_transactionId t)) ;;
  match transaction with
  | Some transaction =>
      if tx_isActive transaction then
        cost <- _calculateTotalCost (timer_stationId t)
                  (tx_id transaction) None ;;
        call (SendCall (timer_stationId t) (timer_tenantId t)
                {| cu_totalCost := cost;
                   cu_transactionId := tx_transactionId transaction |}
                (Info, [Text "Sent costUpdated for ";
                        Text (tx_transactionId transaction);
                        Text " with totalCost "; Num cost]))
      else Ret tt
  | None => Ret tt
  end.

Definition withTotalCost (cost : number) (r : TransactionEventResponse)
  : TransactionEventResponse :=
  {| totalCost := Some cost;
     chargingPriority := chargingPriority r;
     idTokenInfo := idTokenInfo r |}.

Definition tariffAvailableQuery (station : string)
  : VariableAttributeQuerystring :=
  {| q_stationId := station;
     q_component_name := "TariffCostCtrlr";
     q_variable_instance := "Tariff";
     q_variable_name := "Available";
     q_type := Actual |}.

(** [attributes.length !== 0 && Boolean(attributes[0].value)]. *)
Definition supportTariff (attributes : list VariableAttribute) : bool :=
  match attributes with
  | [] => false
  | a :: _ =>
      match va_value a with
      | Some v => Js.truthyString v
      | None => false
      end
  end.

Definition transactionResponseSent : LogLevel * list LogArg :=
  (Debug, [Text "Transaction response sent: "]).

Definition _handleTransactionEvent (this : This)
    (message : IMessage TransactionEventRequest) : Prog unit :=
  call (Log Debug [Text "Transaction event received:";
                   TransactionEventMessage message]) ;;
  let station := stationId (context message) in
  call (CreateOrUpdateTransactionByTransactionEventAndStationId
          (payload message) station) ;;
  let transactionEvent := payload message in
  let transaction := transactionId (transactionInfo transactionEvent) in
  match reservationId (payload message) with
  | Some reservation =>
      if Js.truthyInt (Some reservation)
      then call (ReservationUpdateAllByQuery transaction false
                   reservation station)
      else Ret tt
  | None => Ret tt
  end ;;
  match idToken transactionEvent with
  | Some _ =>
      response <-
        call (AuthorizeIdToken transactionEvent (context message)) ;;
      call (SendCallResultWithMessage (context message)
              (TransactionEventResult response)
              transactionResponseSent) ;;
      match _costUpdatedInterval this with
      | Some interval =>
          if eventTypeEqb (eventType transactionEvent) Started
             && isAccepted (option_map status (idTokenInfo response))
             && truthy interval
          then _updateCost station transaction interval
                 (tenantId (context message))
          else Ret tt
      | None => Ret tt
      end
  | None =>
      let response :=
        {| totalCost := None; chargingPriority := None;
           idTokenInfo := None |} in
      tracked <-
        call (ReadTransactionByStationIdAndTransactionId
                station transaction) ;;
      response <-
        (if eventTypeEqb (eventType (payload message)) Updated then
           response <-
             match tracked with
             | Some t =>
                 if tx_isActive t
                    && Js.truthyBool (_sendCostUpdatedOnMeterValue this)
                 then cost <- _calculateTotalCost station (tx_id t)
                                (tx_totalKwh t) ;;
                      Ret (withTotalCost cost response)
                 else Ret response
             | None => Ret response
             end ;;
           attributes <-
             call (ReadAllByQuerystring (tariffAvailableQuery station)) ;;
           match tracked with
           | Some t =>
               if supportTariff attributes && tx_isActive t
               then call (Log Debug
                            [Text "Checking if updated tariff information is available for traction ";
                             Text (tx_transactionId t)])
               else Ret tt
           | None => Ret tt
           end ;;
           Ret response
         else Ret response) ;;
      response <-
        match tracked with
        | Some t =>
            if eventTypeEqb (eventType (payload message)) Ended
            then cost <- _calculateTotalCost station (tx_id t)
                           (tx_totalKwh t) ;;
                 Ret (withTotalCost cost response)
            else Ret response
        | None => Ret response
        end ;;
      match meterValue transactionEvent with
      | Some values =>
          meterValuesValid <- call (ValidateMeterValues station values) ;;
          if negb meterValuesValid
          then call (Log Warn
                       [Text "One or more MeterValues in this TransactionEvent have an invalid signature."])
          else Ret tt
      | None => Ret tt
      end ;;
      call (SendCallResultWithMessage (context message)
              (TransactionEventResult response)
              transactionResponseSent)
  end.

Definition invalidSignature : string :=
  "One or more MeterValues have an invalid signature.".

Definition _handleMeterValues (message : IMessage MeterValuesRequest)
  : Prog unit :=
  call (Log Debug [Text "MeterValues received:";
                   MeterValuesMessage message]) ;;
  let values := mvr_meterValue (payload message) in
  let station := stationId (context message) in
  promises <- arrayMap (fun v => call (CreateMeterValue v)) values ;;
  promiseAll promises ;;
  meterValuesValid <- call (ValidateMeterValues station values) ;;
  if negb meterValuesValid
  then Throw (OcppError (correlationId (context message)) SecurityError
                invalidSignature)
  else call (SendCallResultWithMessage (context message)
               MeterValuesResult
               (Debug, [Text "MeterValues response sent: "])).

End TransactionsModule.

(** ** The security-event repository *)
Module SecurityEventRepository.

(** A [Date] is modelled by its time value, the milliseconds since the
    epoch, and the [timestamp] column holds such an instant as well.  An
    invalid Date has no time value: [toISOString] throws on it before any
    query is built. *)
Definition Date : Type := Z.

Record SecurityEvent : Type := {
  se_stationId : string;
  se_type : string;
  se_timestamp : Date;
  se_techInfo : option string
}.

(** What [generateTimestampQuery] returns: the empty object, or one
    [timestamp] entry under [Op.lte], [Op.gte] or [Op.between]. *)
Inductive TimestampQuery : Type :=
| NoTimestamp
| TimestampLte (to : string)
| TimestampGte (from : string)
| TimestampBetween (from to : string).

(** [!s] on a [string | undefined]. *)
Definition truthy (s : option string) : bool :=
  match s with
  | Some v => Js.truthyString v
  | None => false
  end.

(** The string an argument holds when it is put into the query. *)
Definition text (s : option string) : string :=
  match s with
  | Some v => v
  | None => ""
  end.

Definition generateTimestampQuery (from to : option string)
  : TimestampQuery :=
  if negb (truthy from) && negb (truthy to) then NoTimestamp
  else if negb (truthy from) && truthy to then TimestampLte (text to)
  else if truthy from && negb (truthy to) then TimestampGte (text from)
  else TimestampBetween (text from) (text to).

Section Reading.

(** [Date.prototype.toISOString], and the instant the database reads
    from a timestamp literal it is given. *)
Variable toISOString : Date -> string.
Variable instantOf : string -> Date.

(** Sequelize's reading of the [timestamp] entry: [Op.lte] is [<=],
    [Op.gte] is [>=] and [Op.between] is SQL's inclusive BETWEEN. *)
Definition timestampSelected (q : TimestampQuery) (e : SecurityEvent)
  : bool :=
  match q with
  | NoTimestamp => true
  | TimestampLte to => se_timestamp e <=? instantOf to
  | TimestampGte from => instantOf from <=? se_timestamp e
  | TimestampBetween from to =>
      (instantOf from <=? se_timestamp e)
      && (se_timestamp e <=? instantOf to)
  end.

(** [readAllByQuery] with [where: { stationId, ...timestampQuery }]:
    the rows that satisfy every entry of the clause, in table order. *)
Definition readAllByQuery (station : string) (q : TimestampQuery)
    (table : list SecurityEvent) : list SecurityEvent :=
  filter (fun e => String.eqb (se_stationId e) station
                   && timestampSelected q e) table.

Definition readByStationIdAndTimestamps (station : string)
    (from to : option Date) (table : list SecurityEvent)
  : list SecurityEvent :=
  let timestampQuery :=
    generateTimestampQuery (option_map toISOString from)
                           (option_map toISOString to) in
  readAllByQuery station timestampQuery table.

End Reading.

End SecurityEventRepository.

(** ** What the properties speak of

    Predicates on programs and calls, and names for the log lines, calls
    and rows that the statements mention. *)
Module Observations.
Import JsNumber Ocpp TransactionsModule SecurityEventRepository.

(** No [Throw] node occurs in the program. *)
Fixpoint NoThrow {R : Type} (p : Prog R) : Prop :=
  match p with
  | Ret _ => True
  | Throw _ => False
  | Do c k => forall x, NoThrow (k x)
  end.

(** Every command of the program satisfies [P]. *)
Fixpoint Every (P : forall X : Type, Cmd X -> Prop) {R : Type}
    (p : Prog R) : Prop :=
  match p with
  | Ret _ | Throw _ => True
  | Do c k => P _ c /\ forall x, Every P (k x)
  end.

(** The command leaves the part [F] of the world alone. *)
Definition Keeps {A : Type} (F : World -> A) (X : Type) (c : Cmd X)
  : Prop :=
  forall env w, F (snd (exec env c w)) = F w.

(** Which calls write the reservation table, put a message in the outbox,
    arm a timer. *)
Definition writesReservations {X : Type} (c : Cmd X) : bool :=
  match c with
  | ReservationUpdateAllByQuery _ _ _ _ => true
  | _ => false
  end.

Definition sends {X : Type} (c : Cmd X) : bool :=
  match c with
  | SendCallResultWithMessage _ _ _ | SendCall _ _ _ _ => true
  | _ => false
  end.

Definition setsInterval {X : Type} (c : Cmd X) : bool :=
  match c with
  | SetInterval _ => true
  | _ => false
  end.

Definition validates {X : Type} (c : Cmd X) : bool :=
  match c with
  | ValidateMeterValues _ _ => true
  | _ => false
  end.

Definition tariffNotFound (station : string) : LogLevel * list LogArg :=
  (Error, [Text "Tariff not found for station "; Text station]).

Definition tariffFound (station : string) (t : Tariff) : Call :=
  Called (Log Debug [Text "Tariff "; Int (tariff_id t);
                     Text " found for station "; Text station]).

(** The energy utility of the environment is the one the spec describes:
    it sums the meter values. *)
Definition totalsBySumming (env : Environment) : Prop :=
  forall values, getTotalKwh env values = MeterValueUtils.getTotalKwh values.

Definition totalKwhLogged (kwh : number) : Call :=
  Called (Log Debug [Text "TotalKwh: "; Num kwh]).

Definition received (message : IMessage TransactionEventRequest) : Call :=
  Called (Log Debug [Text "Transaction event received:";
                     TransactionEventMessage message]).

(** What the bulk update does to one reservation row. *)
Definition terminated (transaction : string) (reservation : Z)
    (station : string) (old new : Reservation) : Prop :=
  if (res_id old =? reservation) && String.eqb (res_stationId old) station
  then new = {| res_id := res_id old;
                res_stationId := res_stationId old;
                res_isActive := false;
                res_terminatedByTransaction := Some transaction |}
  else new = old.

Definition noReservationWrite (made : Call) : Prop :=
  match made with
  | Called c => writesReservations c = false
  end.

(** The timer [_updateCost] arms for a message and an interval. *)
Definition costTimer (message : IMessage TransactionEventRequest)
    (interval : number) : Timer :=
  {| timer_stationId := stationId (context message);
     timer_transactionId := transactionId (transactionInfo (payload message));
     timer_tenantId := tenantId (context message);
     timer_delay := mul interval (ofZ 1000) |}.

Definition invalidSignatureWarning : LogLevel * list LogArg :=
  (Warn,
   [Text "One or more MeterValues in this TransactionEvent have an invalid signature."]).

Definition created (values : list MeterValueType) : list Call :=
  map (fun v => Called (CreateMeterValue v)) values.

(** The bounds the caller gave, read on instants. *)
Definition withinBounds (from to : option Date) (t : Date) : bool :=
  match from, to with
  | None, None => true
  | None, Some hi => t <=? hi
  | Some lo, None => lo <=? t
  | Some lo, Some hi => (lo <=? t) && (t <=? hi)
  end.

(** The bound, when given, has a text that is not empty and that the
    database reads back as the same instant. *)
Definition rendered (toISOString : Date -> string)
    (instantOf : string -> Date) (bound : option Date) : Prop :=
  match bound with
  | Some d => toISOString d <> "" /\ instantOf (toISOString d) = d
  | None => True
  end.

End Observations.

(** ** ISO 8601 timestamps

    The text [toISOString] gives for a time value, and the instant read
    back from such a text; used to run the repository on real dates. *)
Module Iso8601.

Definition digit (n : Z) : ascii := ascii_of_nat (48 + Z.to_nat n).

Fixpoint digits (width : nat) (n : Z) : string :=
  match width with
  | O => EmptyString
  | S k =>
      String.append (digits k (n / 10))
        (String (digit (n mod 10)) EmptyString)
  end.

(** Year, month and day of a day number counted from 1970-01-01, in the
    proleptic Gregorian calendar. *)
Definition civil (days : Z) : Z * Z * Z :=
  let z := days + 719468 in
  let era := z / 146097 in
  let doe := z - era * 146097 in
  let yoe := (doe - doe / 1460 + doe / 36524 - doe / 146096) / 365 in
  let doy := doe - (365 * yoe + yoe / 4 - yoe / 100) in
  let mp := (5 * doy + 2) / 153 in
  let d := doy - (153 * mp + 2) / 5 + 1 in
  let m := if mp <? 10 then mp + 3 else mp - 9 in
  let y := yoe + era * 400 + (if m <=? 2 then 1 else 0) in
  (y, m, d).

(** Four digits for the years 0 to 9999, a sign and six digits otherwise. *)
Definition yearText (y : Z) : string :=
  if (0 <=? y) && (y <=? 9999) then digits 4 y
  else String.append (if y <? 0 then "-" else "+") (digits 6 (Z.abs y)).

Definition toISOString (ms : Z) : string :=
  let rest := ms mod 86400000 in
  let '(y, m, d) := civil (ms / 86400000) in
  String.concat ""
    [yearText y; "-"; digits 2 m; "-"; digits 2 d; "T";
     digits 2 (rest / 3600000); ":"; digits 2 (rest / 60000 mod 60); ":";
     digits 2 (rest / 1000 mod 60); "."; digits 3 (rest mod 1000); "Z"].

Fixpoint numberFrom (acc : Z) (s : string) : Z :=
  match s with
  | EmptyString => acc
  | String c rest =>
      numberFrom (acc * 10 + (Z.of_nat (nat_of_ascii c) - 48)) rest
  end.

Definition field (from len : nat) (s : string) : Z :=
  numberFrom 0 (substring from len s).

Definition daysFromCivil (y m d : Z) : Z :=
  let y := y - (if m <=? 2 then 1 else 0) in
  let era := y / 400 in
  let yoe := y - era * 400 in
  let mp := (m + 9) mod 12 in
  let doy := (153 * mp + 2) / 5 + d - 1 in
  let doe := yoe * 365 + yoe / 4 - yoe / 100 + doy in
  era * 146097 + doe - 719468.

Definition instantOf (s : string) : Z :=
  let '(sign, w, body) :=
    match s with
    | String "+" rest => (1, 6%nat, rest)
    | String "-" rest => (-1, 6%nat, rest)
    | _ => (1, 4%nat, s)
    end in
  let days := daysFromCivil (sign * field 0 w body)
                (field (w + 1) 2 body) (field (w + 4) 2 body) in
  days * 86400000
  + field (w + 7) 2 body * 3600000
  + field (w + 10) 2 body * 60000
  + field (w + 13) 2 body * 1000
  + field (w + 16) 3 body.

(** Security events of two stations around 2024-05-01T10:00:00.000Z. *)
Definition securityEvents : list SecurityEventRepository.SecurityEvent :=
  map (fun '(station, t) =>
         {| SecurityEventRepository.se_stationId := station;
            SecurityEventRepository.se_type := "SettingSystemTime";
            SecurityEventRepository.se_timestamp := t;
            SecurityEventRepository.se_techInfo := None |})
      [("CS1", 1714557599999); ("CS1", 1714557600000);
       ("CS2", 1714557600000); ("CS1", 1714561200000);
       ("CS1", 1714561200001)].

End Iso8601.

(** ** A charging session at station CS1

    Concrete tables, messages and services on which the handlers are run:
    a tariff of 0.30 per kWh at CS1, transaction T1 with database id 42 and
    meter values of 5 and 7.5 kWh, and reservation 7. *)
Module Scenario.
Import JsNumber Ocpp TransactionsModule.

(** A signature check for the scenario: the signed data must not be the
    text "tampered". *)
Definition signedOk (station : string) (v : MeterValueType) : bool :=
  forallb (fun s =>
             match sv_signedMeterData s with
             | Some d => negb (String.eqb d "tampered")
             | None => true
             end) (mv_sampledValue v).

(** A transaction table for the scenario: an event for a known transaction
    updates its active flag, one for an unknown transaction adds a row. *)
Definition upsert (value : TransactionEventRequest) (station : string)
    (txs : list Transaction) : list Transaction :=
  let transaction := transactionId (transactionInfo value) in
  let active := negb (eventTypeEqb (eventType value) Ended) in
  if existsb (matchesTransaction station transaction) txs
  then map (fun t =>
              if matchesTransaction station transaction t
              then {| tx_id := tx_id t; tx_stationId := tx_stationId t;
                      tx_transactionId := tx_transactionId t;
                      tx_isActive := active;
                      tx_totalKwh := tx_totalKwh t |}
              else t) txs
  else txs ++ [{| tx_id := 1 + fold_right Z.max 0 (map tx_id txs);
                  tx_stationId := station;
                  tx_transactionId := transaction;
                  tx_isActive := active;
                  tx_totalKwh := None |}].

Definition accept (event : TransactionEventRequest) (ctx : MessageContext)
    (w : World) : TransactionEventResponse :=
  {| totalCost := None; chargingPriority := None;
     idTokenInfo := Some {| status := Accepted |} |}.

Definition env0 : Environment :=
  {| upsertTransaction := upsert;
     authorizeIdToken := accept;
     signatureValid := signedOk;
     getTotalKwh := MeterValueUtils.getTotalKwh;
     fault := fun _ _ _ => None;
     rejectedAt := fun _ _ _ => 0 |}.

(** The same services with the authorization store out of reach. *)
Definition envAuthorizationDown : Environment :=
  {| upsertTransaction := upsert;
     authorizeIdToken := accept;
     signatureValid := signedOk;
     getTotalKwh := MeterValueUtils.getTotalKwh;
     fault := fun X c _ =>
                match c with
                | AuthorizeIdToken _ _ =>
                    Some (RepositoryError "authorization store unavailable")
                | _ => None
                end;
     rejectedAt := fun _ _ _ => 0 |}.



Definition reading (kwh : number) (signed : option string)
  : MeterValueType :=
  {| mv_timestamp := "2024-05-01T10:00:00.000Z";
     mv_sampledValue :=
       [{| sv_value := kwh;
           sv_measurand := Some "Energy.Active.Import.Register";
           sv_signedMeterData := signed |}] |}.

Definition world0 : World :=
  {| transactions :=
       [{| tx_id := 42; tx_stationId := "CS1"; tx_transactionId := "T1";
           tx_isActive := true; tx_totalKwh := None |}];
     transactionEvents := [];
     meterValues :=
       rowsOf (Some 42) [reading (ofZ 5) None; reading (decimal 75 1) None];
     tariffs :=
       [{| tariff_id := 1; tariff_stationId := "CS1";
           pricePerKwh := decimal 30 2 |}];
     reservations :=
       [{| res_id := 7; res_stationId := "CS1"; res_isActive := true;
           res_terminatedByTransaction := None |};
        {| res_id := 7; res_stationId := "CS2"; res_isActive := true;
           res_terminatedByTransaction := None |};
        {| res_id := 0; res_stationId := "CS1"; res_isActive := true;
           res_terminatedByTransaction := None |}];
     variableAttributes := [];
     logs := []; sent := []; timers := []; trace := [] |}.

Definition ctx0 : MessageContext :=
  {| stationId := "CS1"; tenantId := "tenant"; correlationId := "c-1" |}.

Definition token : IdTokenType :=
  {| tok_idToken := "RFID-1"; tok_type := "ISO14443" |}.

Definition event (kind : TransactionEventEnumType)
    (tok : option IdTokenType) (reservation : option Z)
    (values : option (list MeterValueType))
  : IMessage TransactionEventRequest :=
  {| context := ctx0;
     payload :=
       {| eventType := kind; ev_timestamp := "2024-05-01T10:00:00.000Z";
          seqNo := 0;
          transactionInfo := {| transactionId := "T1" |};
          idToken := tok; reservationId := reservation;
          meterValue := values |} |}.

Definition config (interval : option number) : This :=
  {| _sendCostUpdatedOnMeterValue := Some false;
     _costUpdatedInterval := interval |}.

End Scenario.

(** ** The conduct of a handler

    What a handler does with the outbox and the tables along every path,
    and further kinds of calls. *)
Module Conduct.
Import JsNumber Ocpp TransactionsModule Observations.

Definition isTransactionEventResult (r : CallResultPayload) : bool :=
  match r with
  | TransactionEventResult _ => true
  | MeterValuesResult => false
  end.

Definition isMeterValuesResult (r : CallResultPayload) : bool :=
  match r with
  | TransactionEventResult _ => false
  | MeterValuesResult => true
  end.

(** The call sends a result of the given kind for the given message. *)
Definition respondsTo (ctx : MessageContext)
    (kind : CallResultPayload -> bool) {X : Type} (c : Cmd X) : Prop :=
  match c with
  | SendCallResultWithMessage ctx' response _ =>
      ctx' = ctx /\ kind response = true
  | _ => False
  end.

(** The program ends without a [Throw], and makes only calls that are not
    awaited and send nothing. *)
Fixpoint Quiet {R : Type} (p : Prog R) : Prop :=
  match p with
  | Ret _ => True
  | Throw _ => False
  | Do c k => awaited c = false /\ sends c = false /\ forall x, Quiet (k x)
  end.

(** Along every path the program either throws before it has sent
    anything, or sends one result for the message and then ends quietly. *)
Fixpoint RespondsOnce (ctx : MessageContext)
    (kind : CallResultPayload -> bool) {R : Type} (p : Prog R) : Prop :=
  match p with
  | Ret _ => False
  | Throw _ => True
  | Do c k =>
      (respondsTo ctx kind c /\ forall x, Quiet (k x))
      \/ (sends c = false /\ forall x, RespondsOnce ctx kind (k x))
  end.

Definition authorizes {X : Type} (c : Cmd X) : bool :=
  match c with
  | AuthorizeIdToken _ _ => true
  | _ => false
  end.

Definition looksUpTariff {X : Type} (c : Cmd X) : bool :=
  match c with
  | FindByStationId _ => true
  | _ => false
  end.

Definition recordsEvent {X : Type} (c : Cmd X) : bool :=
  match c with
  | CreateOrUpdateTransactionByTransactionEventAndStationId _ _ => true
  | _ => false
  end.

Definition writesTransactions {X : Type} (c : Cmd X) : bool :=
  match c with
  | CreateOrUpdateTransactionByTransactionEventAndStationId _ _
  | TransactionUpdate _ _ => true
  | _ => false
  end.

Definition writesMeterValues {X : Type} (c : Cmd X) : bool :=
  match c with
  | CreateOrUpdateTransactionByTransactionEventAndStationId _ _
  | CreateMeterValue _ => true
  | _ => false
  end.



(** A transaction row without its cached energy total. *)
Definition identity (t : Transaction) : Z * string * string * bool :=
  (tx_id t, tx_stationId t, tx_transactionId t, tx_isActive t).

(** The response of the handler before any cost is attached. *)
Definition emptyResponse : TransactionEventResponse :=
  {| totalCost := None; chargingPriority := None; idTokenInfo := None |}.

(** The world in which the handler reads the tracked transaction: the
    transaction table is the one the create-or-update left. *)
Definition trackedAfter (env : Environment)
    (message : IMessage TransactionEventRequest) (w : World)
  : option Transaction :=
  find (matchesTransaction (stationId (context message))
          (transactionId (transactionInfo (payload message))))
       (upsertTransaction env (payload message)
          (stationId (context message)) (transactions w)).

(** A row the handler leaves as it was or terminates: the row terminated
    has the nonzero reservation id of the event and the station of the
    message. *)
Definition untouchedOrTerminated
    (message : IMessage TransactionEventRequest)
    (old new : Reservation) : Prop :=
  new = old
  \/ (reservationId (payload message) = Some (res_id old)
      /\ res_id old <> 0
      /\ res_stationId old = stationId (context message)
      /\ new = {| res_id := res_id old;
                  res_stationId := res_stationId old;
                  res_isActive := false;
                  res_terminatedByTransaction :=
                    Some (transactionId
                            (transactionInfo (payload message))) |}).

Definition neitherValidatesNorPrices (made : Call) : Prop :=
  match made with
  | Called c => validates c || looksUpTariff c = false
  end.

Definition neitherAuthorizesNorArms (made : Call) : Prop :=
  match made with
  | Called c => authorizes c || setsInterval c = false
  end.

(** The lower bound [wide] admits every instant that [narrow] admits, and
    likewise for upper bounds. *)
Definition lowerAdmits (wide narrow : option SecurityEventRepository.Date)
  : Prop :=
  match wide, narrow with
  | None, _ => True
  | Some a, Some b => a <= b
  | Some _, None => False
  end.

Definition upperAdmits (wide narrow : option SecurityEventRepository.Date)
  : Prop :=
  match wide, narrow with
  | None, _ => True
  | Some a, Some b => b <= a
  | Some _, None => False
  end.

End Conduct.

(** * Properties *)

(** ** JavaScript numbers *)
Module NumberFacts.
Import JsNumber.

(** Shifting a mantissa left by [k] bits adds [k] to its bit length and
    multiplies it by [2^k]. *)
Lemma digits2_pos_iter p k :
  Zpos (digits2_pos (Pos.iter xO p k)) = Zpos (digits2_pos p) + Zpos k.
Proof.
  induction k using Pos.peano_ind.
  - simpl. lia.
  - rewrite Pos.iter_succ. simpl. lia.
Qed.

Lemma iter_xO_pow p k : Zpos (Pos.iter xO p k) = Zpos p * 2 ^ Zpos k.
Proof.
  induction k using Pos.peano_ind.
  - simpl. lia.
  - rewrite Pos.iter_succ. rewrite Pos2Z.inj_succ, Z.pow_succ_r by lia.
    rewrite Pos2Z.inj_xO, IHk. lia.
Qed.

(** A mantissa that is already in canonical position is not rounded. *)
Lemma binary_round_aux_exact s m e :
  fexp prec emax (Zpos (digits2_pos m) + e) = e ->
  e <= emax - prec ->
  binary_round_aux prec emax s (Zpos m) e loc_Exact = S754_finite s m e.
Proof.
  intros Hcanon Hmax.
  unfold binary_round_aux, shr_fexp.
  change (Zdigits2 (Zpos m)) with (Zpos (digits2_pos m)).
  rewrite Hcanon, Z.sub_diag.
  cbn [shr shr_record_of_loc shr_m loc_of_shr_record round_nearest_even].
  change (Zdigits2 (Zpos m)) with (Zpos (digits2_pos m)).
  rewrite Hcanon, Z.sub_diag.
  cbn [shr shr_record_of_loc shr_m].
  apply Z.leb_le in Hmax. rewrite Hmax. reflexivity.
Qed.

(** An integer of at most 53 bits is represented exactly. *)
Lemma binary_round_exact s p :
  Zpos (digits2_pos p) <= 53 ->
  exists m e,
    binary_round prec emax s p 0 = S754_finite s m e
    /\ e <= 0 /\ Zpos m = Zpos p * 2 ^ (- e).
Proof.
  intro Hd. unfold binary_round, shl_align.
  assert (Hfexp : fexp prec emax (Zpos (digits2_pos p) + 0)
                  = Zpos (digits2_pos p) - 53)
    by (unfold fexp, emin, prec, emax; lia).
  rewrite Hfexp.
  destruct (Zpos (digits2_pos p) - 53 - 0) as [| k | k] eqn:Hk; try lia.
  - exists p, 0. split; [| split; [lia | simpl; lia]].
    apply binary_round_aux_exact; [| unfold emax, prec; lia].
    rewrite Hfexp. lia.
  - exists (Pos.iter xO p k), (Zpos (digits2_pos p) - 53).
    split; [| split; [lia |]].
    + apply binary_round_aux_exact; [| unfold emax, prec; lia].
      rewrite digits2_pos_iter. unfold fexp, emin, prec, emax. lia.
    + rewrite iter_xO_pow. f_equal. f_equal. lia.
Qed.

Lemma digits2_pos_lower p : 2 ^ (Zpos (digits2_pos p) - 1) <= Zpos p.
Proof.
  induction p as [p IH | p IH |]; simpl digits2_pos.
  - rewrite Pos2Z.inj_succ.
    replace (Z.succ (Zpos (digits2_pos p)) - 1)
      with (Z.succ (Zpos (digits2_pos p) - 1)) by lia.
    rewrite Z.pow_succ_r by lia. lia.
  - rewrite Pos2Z.inj_succ.
    replace (Z.succ (Zpos (digits2_pos p)) - 1)
      with (Z.succ (Zpos (digits2_pos p) - 1)) by lia.
    rewrite Z.pow_succ_r by lia. lia.
  - simpl. lia.
Qed.

Lemma digits2_pos_small p : Zpos p < 2 ^ 53 -> Zpos (digits2_pos p) <= 53.
Proof.
  intro Hp. pose proof (digits2_pos_lower p) as Hlow.
  destruct (Z_le_gt_dec (Zpos (digits2_pos p)) 53) as [Hle | Hgt];
    [exact Hle |].
  assert (2 ^ 53 <= 2 ^ (Zpos (digits2_pos p) - 1))
    by (apply Z.pow_le_mono_r; lia).
  lia.
Qed.

Lemma toZ_binary_round s p :
  Zpos p < 2 ^ 53 ->
  toZ (binary_round prec emax s p 0) = Some (cond_Zopp s (Zpos p)).
Proof.
  intro Hp.
  destruct (binary_round_exact s p (digits2_pos_small p Hp))
    as (m & e & Hround & He & Hm).
  rewrite Hround. unfold toZ.
  destruct (0 <=? e) eqn:Hpos.
  - apply Z.leb_le in Hpos. assert (e = 0) by lia. subst e.
    f_equal. f_equal. rewrite Hm. change (- 0) with 0. lia.
  - assert (0 < 2 ^ (- e)) by (apply Z.pow_pos_nonneg; lia).
    rewrite Hm, Z.mod_mul, Z.eqb_refl, Z.div_mul by lia. reflexivity.
Qed.

(** An integer below [2^53] in absolute value is a JS number. *)
Lemma toZ_ofZ n :
  n <> 0 -> Z.abs n < 2 ^ 53 -> toZ (ofZ n) = Some n.
Proof.
  intros Hn Habs. unfold ofZ, binary_normalize.
  destruct n as [| p | p]; [contradiction | |].
  - apply (toZ_binary_round false p). exact Habs.
  - apply (toZ_binary_round true p). exact Habs.
Qed.

(** The mantissa of a binary64 value has at most 53 bits. *)
Lemma valid_mantissa s m e :
  valid_binary prec emax (S754_finite s m e) = true -> Zpos m < 2 ^ 53.
Proof.
  unfold valid_binary, bounded, canonical_mantissa, fexp, emin, prec, emax.
  intro H. apply andb_true_iff in H. destruct H as [H _].
  apply Z.eqb_eq in H.
  assert (Hd : Zpos (digits2_pos m) <= 53) by lia.
  clear H.
  assert (Hup : Zpos m < 2 ^ Zpos (digits2_pos m)).
  { clear Hd. induction m as [m IH | m IH |]; simpl digits2_pos.
    - rewrite Pos2Z.inj_succ, Z.pow_succ_r by lia. lia.
    - rewrite Pos2Z.inj_succ, Z.pow_succ_r by lia. lia.
    - simpl. lia. }
  assert (2 ^ Zpos (digits2_pos m) <= 2 ^ 53)
    by (apply Z.pow_le_mono_r; lia).
  lia.
Qed.

(** On a binary64 value [Math.floor] gives the number that denotes the
    greatest integer not above it. *)
Lemma floor_rounds_down x :
  valid_binary prec emax x = true ->
  isFinite x = true ->
  exists n, toZ (floor x) = Some n /\ isFloorOf n x.
Proof.
  intros Hvalid Hfinite.
  destruct x as [s | s | | s m e]; try discriminate Hfinite.
  - exists 0. split; reflexivity.
  - pose proof (valid_mantissa s m e Hvalid) as Hm.
    unfold floor, isFloorOf.
    destruct (0 <=? e) eqn:Hpos.
    + exists (cond_Zopp s (Zpos m) * 2 ^ e). split; [| reflexivity].
      unfold toZ. rewrite Hpos. f_equal.
      destruct s; unfold cond_Zopp; [ring | reflexivity].
    + apply Z.leb_gt in Hpos.
      rewrite Z.shiftr_div_pow2 by lia.
      assert (Hpow : 2 <= 2 ^ (- e)).
      { change 2 with (2 ^ 1) at 1. apply Z.pow_le_mono_r; lia. }
      pose proof (Z.div_mod (cond_Zopp s (Zpos m)) (2 ^ (- e))) as Hdm.
      pose proof (Z.mod_pos_bound (cond_Zopp s (Zpos m)) (2 ^ (- e))) as Hr.
      assert (Hbound : Z.abs (cond_Zopp s (Zpos m) / 2 ^ (- e)) < 2 ^ 53)
        by (destruct s; simpl in *; nia).
      exists (cond_Zopp s (Zpos m) / 2 ^ (- e)).
      split; [| nia].
      destruct (cond_Zopp s (Zpos m) / 2 ^ (- e)) as [| q | q] eqn:Hq.
      * reflexivity.
      * apply toZ_ofZ; [discriminate | exact Hbound].
      * apply toZ_ofZ; [discriminate | exact Hbound].
Qed.

Lemma positive_is_truthy (x : number) :
  ltb (ofZ 0) x = true -> truthy x = true.
Proof. destruct x as [s | s | | s m e]; try reflexivity; discriminate. Qed.

End NumberFacts.

(** ** Running programs: composition, absence of throws, frames *)
Module ProgFacts.
Import JsNumber Ocpp TransactionsModule Observations.

Lemma run_bind env {A B : Type} (p : Prog A) (f : A -> Prog B) w :
  run env (bind p f) w =
  match run env p w with
  | (w1, inl e) => (w1, inl e)
  | (w1, inr a) => run env (f a) w1
  end.
Proof.
  revert w. induction p as [a | e | X c k IH]; intro w; simpl.
  - reflexivity.
  - reflexivity.
  - destruct (if awaited c then fault env X c _ else None).
    + reflexivity.
    + destruct (exec env c _) as [x w2]. apply IH.
Qed.

Lemma run_call env {X : Type} (c : Cmd X) w :
  reliable env ->
  run env (call c) w =
  (snd (exec env c (setTrace (trace w ++ [Called c]) w)),
   inr (fst (exec env c (setTrace (trace w ++ [Called c]) w)))).
Proof.
  intro H. unfold call. simpl. rewrite H.
  destruct (awaited c); destruct (exec env c _); reflexivity.
Qed.

Lemma NoThrow_bind {A B : Type} (p : Prog A) (f : A -> Prog B) :
  NoThrow p -> (forall a, NoThrow (f a)) -> NoThrow (bind p f).
Proof.
  induction p as [a | e | X c k IH]; simpl; intros Hp Hf.
  - apply Hf.
  - exact Hp.
  - intro x. apply IH; [apply Hp | exact Hf].
Qed.

Lemma Every_bind P {A B : Type} (p : Prog A) (f : A -> Prog B) :
  Every P p -> (forall a, Every P (f a)) -> Every P (bind p f).
Proof.
  induction p as [a | e | X c k IH]; simpl; intros Hp Hf.
  - apply Hf.
  - exact I.
  - destruct Hp as [Hc Hk]. split; [exact Hc |].
    intro x. apply IH; [apply Hk | exact Hf].
Qed.

(** A program without [Throw] returns when no call fails. *)
Lemma run_returns env {R : Type} (p : Prog R) w :
  reliable env -> NoThrow p -> exists r, snd (run env p w) = inr r.
Proof.
  intros Hrel. revert w.
  induction p as [r | e | X c k IH]; simpl; intros w Hp.
  - exists r. reflexivity.
  - contradiction.
  - rewrite Hrel. destruct (awaited c); destruct (exec env c _) as [x w2];
      apply IH, Hp.
Qed.

(** A part of the world that the trace does not belong to and that
    every command of the program keeps is the same after the run,
    whatever fails. *)
Lemma run_keeps env {A R : Type} (F : World -> A) (p : Prog R) w :
  (forall t w0, F (setTrace t w0) = F w0) ->
  Every (Keeps F) p -> F (fst (run env p w)) = F w.
Proof.
  intros Htr. revert w.
  induction p as [r | e | X c k IH]; simpl; intros w Hp.
  - reflexivity.
  - reflexivity.
  - destruct Hp as [Hc Hk].
    destruct (if awaited c then fault env X c _ else None).
    + simpl. apply Htr.
    + specialize (Hc env (setTrace (trace w ++ [Called c]) w)).
      destruct (exec env c _) as [x w2]. simpl in Hc.
      rewrite IH by apply Hk. rewrite Hc. apply Htr.
Qed.

Lemma exec_trace env {X : Type} (c : Cmd X) w :
  trace (snd (exec env c w)) = trace w.
Proof. destruct c; simpl; try destruct (fault env _ _ _); reflexivity. Qed.

Lemma exec_transactionEvents env {X : Type} (c : Cmd X) w :
  exists more,
    transactionEvents (snd (exec env c w)) = transactionEvents w ++ more.
Proof.
  destruct c; simpl; try destruct (fault env _ _ _);
    try (exists []; rewrite app_nil_r; reflexivity).
  eexists. reflexivity.
Qed.

(** The trace only grows, whatever fails. *)
Lemma run_trace env {R : Type} (p : Prog R) w :
  exists rest, trace (fst (run env p w)) = trace w ++ rest.
Proof.
  revert w. induction p as [r | e | X c k IH]; simpl; intro w.
  - exists []. rewrite app_nil_r. reflexivity.
  - exists []. rewrite app_nil_r. reflexivity.
  - destruct (if awaited c then fault env X c _ else None).
    + simpl. eexists. reflexivity.
    + pose proof (exec_trace env c (setTrace (trace w ++ [Called c]) w))
        as Hc.
      destruct (exec env c _) as [x w2]. simpl in Hc.
      destruct (IH x w2) as [rest Hrest].
      rewrite Hrest, Hc. simpl. rewrite <- app_assoc.
      eexists. reflexivity.
Qed.

(** The event table is append-only, whatever fails. *)
Lemma run_transactionEvents env {R : Type} (p : Prog R) w :
  exists more,
    transactionEvents (fst (run env p w)) = transactionEvents w ++ more.
Proof.
  revert w. induction p as [r | e | X c k IH]; simpl; intro w.
  - exists []. rewrite app_nil_r. reflexivity.
  - exists []. rewrite app_nil_r. reflexivity.
  - destruct (if awaited c then fault env X c _ else None).
    + simpl. exists []. rewrite app_nil_r. reflexivity.
    + destruct (exec_transactionEvents env c
                  (setTrace (trace w ++ [Called c]) w)) as [m1 Hc].
      destruct (exec env c _) as [x w2]. simpl in Hc.
      destruct (IH x w2) as [m2 Hm2].
      rewrite Hm2, Hc. simpl. rewrite <- app_assoc.
      eexists. reflexivity.
Qed.

(** The calls a run adds to the trace are calls of the program. *)
Lemma run_trace_every env P {R : Type} (p : Prog R) w :
  Every P p ->
  exists rest,
    trace (fst (run env p w)) = trace w ++ rest
    /\ Forall (fun made => match made with Called c => P _ c end) rest.
Proof.
  revert w. induction p as [r | e | X c k IH]; simpl; intros w Hp.
  - exists []. rewrite app_nil_r. split; [reflexivity | constructor].
  - exists []. rewrite app_nil_r. split; [reflexivity | constructor].
  - destruct Hp as [Hc Hk].
    destruct (if awaited c then fault env X c _ else None).
    + simpl. exists [Called c]. split; [reflexivity |].
      constructor; [exact Hc | constructor].
    + pose proof (exec_trace env c (setTrace (trace w ++ [Called c]) w))
        as Ht.
      destruct (exec env c _) as [x w2]. simpl in Ht.
      destruct (IH x w2 (Hk x)) as (rest & Hrest & Hall).
      exists (Called c :: rest). split.
      * rewrite Hrest, Ht. simpl. rewrite <- app_assoc. reflexivity.
      * constructor; assumption.
Qed.

Lemma Every_impl (P Q : forall X : Type, Cmd X -> Prop) {R : Type}
    (p : Prog R) :
  (forall X c, P X c -> Q X c) -> Every P p -> Every Q p.
Proof.
  intro HPQ. induction p as [r | e | X c k IH]; simpl; intro Hp.
  - exact I.
  - exact I.
  - destruct Hp as [Hc Hk]. split; [apply HPQ, Hc |].
    intro x. apply IH, Hk.
Qed.

Lemma Every_call P {X : Type} (c : Cmd X) : P X c -> Every P (call c).
Proof. intro Hc. unfold call. simpl. split; [exact Hc | intro; exact I]. Qed.

Lemma NoThrow_call {X : Type} (c : Cmd X) : NoThrow (call c).
Proof. unfold call. simpl. intro. exact I. Qed.

(** A call made whatever the environment does. *)
Lemma run_call_any env {X : Type} (c : Cmd X) w :
  run env (call c) w =
  let w1 := setTrace (trace w ++ [Called c]) w in
  match (if awaited c then fault env X c w1 else None) with
  | Some e => (w1, inl e)
  | None => (snd (exec env c w1), inr (fst (exec env c w1)))
  end.
Proof.
  unfold call. simpl.
  destruct (if awaited c then fault env X c _ else None);
    [reflexivity |].
  destruct (exec env c _); reflexivity.
Qed.

Lemma run_Ret env {R : Type} (r : R) w : run env (Ret r) w = (w, inr r).
Proof. reflexivity. Qed.

Lemma run_Throw env {R : Type} e w :
  run env (Throw e : Prog R) w = (w, inl e).
Proof. reflexivity. Qed.

#[global] Arguments run : simpl never.
#[global] Arguments bind : simpl never.
#[global] Arguments call : simpl never.
#[global] Arguments validateMeterValues : simpl never.

(** One step of a run in which no call fails: a call, a returned
    value, or the left part of a sequence when it is one of these. *)
Ltac run_step Hrel :=
  match goal with
  | |- context [run ?e (bind (call ?c) ?f) ?w] =>
      rewrite (run_bind e (call c) f w), (run_call e c w Hrel)
  | |- context [run ?e (bind (Ret ?r) ?f) ?w] =>
      rewrite (run_bind e (Ret r) f w), (run_Ret e r w)
  | |- context [run ?e (bind (bind ?p ?g) ?f) ?w] =>
      rewrite (run_bind e (bind p g) f w)
  | |- context [run ?e (call ?c) ?w] => rewrite (run_call e c w Hrel)
  | |- context [run ?e (Ret ?r) ?w] => rewrite (run_Ret e r w)
  | |- context [run ?e (Throw ?x) ?w] => rewrite (run_Throw e x w)
  end.

Ltac run_steps Hrel := repeat (run_step Hrel; simpl).

Lemma run_bind_returned env {A B : Type} (p : Prog A) (f : A -> Prog B)
    w a :
  snd (run env p w) = inr a ->
  run env (bind p f) w = run env (f a) (fst (run env p w)).
Proof.
  intro Ha. rewrite run_bind. destruct (run env p w) as [w1 o].
  simpl in Ha. subst o. reflexivity.
Qed.

Lemma keeps_reservations {X : Type} (c : Cmd X) :
  writesReservations c = false -> Keeps reservations X c.
Proof.
  destruct c; intros H env w; try discriminate H; simpl;
    try destruct (fault env _ _ _); reflexivity.
Qed.

Lemma keeps_sent {X : Type} (c : Cmd X) :
  sends c = false -> Keeps sent X c.
Proof.
  destruct c; intros H env w; try discriminate H; simpl;
    try destruct (fault env _ _ _); reflexivity.
Qed.

Lemma keeps_timers {X : Type} (c : Cmd X) :
  setsInterval c = false -> Keeps timers X c.
Proof.
  destruct c; intros H env w; try discriminate H; simpl;
    try destruct (fault env _ _ _); reflexivity.
Qed.

(** Decompose a program built from [bind], [call], [Ret] and case
    distinctions. *)
Ltac every_tac :=
  repeat first
    [ intro
    | progress cbv beta zeta
    | match goal with
      | |- Every _ (Ret _) => exact I
      | |- Every _ (bind _ _) => apply Every_bind
      | |- Every _ (call _) => apply Every_call; reflexivity
      | |- Every _ (match ?x with _ => _ end) => destruct x
      | |- Every _ (_calculateTotalCost _ _ _) => unfold _calculateTotalCost
      | |- Every _ (_updateCost _ _ _ _) => unfold _updateCost
      end ].

Ltac nothrow_tac :=
  repeat first
    [ intro
    | progress cbv beta zeta
    | match goal with
      | |- NoThrow (Ret _) => exact I
      | |- NoThrow (bind _ _) => apply NoThrow_bind
      | |- NoThrow (call _) => apply NoThrow_call
      | |- NoThrow (match ?x with _ => _ end) => destruct x
      | |- NoThrow (_calculateTotalCost _ _ _) => unfold _calculateTotalCost
      | |- NoThrow (_updateCost _ _ _ _) => unfold _updateCost
      end ].

Ltac keeps_tac keeps_lemma :=
  apply run_keeps;
  [reflexivity
  | eapply Every_impl; [intros ? ?; apply keeps_lemma | every_tac]].

(** Pass over the left part [p] of a sequence that cannot throw: the run
    goes on with the value [a] that [p] returns, from the world [w'] it
    leaves, in which the outbox and the timers are as before when [p]
    neither sends nor arms. *)
Ltac run_over Hrel a w' :=
  match goal with
  | |- context [run ?e (bind ?p ?f) ?w] =>
      let Ha := fresh "Ha" in
      destruct (run_returns e p w Hrel) as [a Ha];
      [nothrow_tac
      | rewrite (run_bind_returned e p f w a Ha);
        try (let Hs := fresh "Hsent" in
             assert (Hs : sent (fst (run e p w)) = sent w)
               by keeps_tac @keeps_sent;
             simpl in Hs);
        try (let Ht := fresh "Htimers" in
             assert (Ht : timers (fst (run e p w)) = timers w)
               by keeps_tac @keeps_timers;
             simpl in Ht);
        clear Ha;
        set (w' := fst (run e p w)) in *; clearbody w']
  end.

End ProgFacts.

(** ** The cost calculator *)
Module CostFacts.
Import JsNumber Ocpp TransactionsModule Observations NumberFacts ProgFacts.

(** C6. [_roundCost] is [Math.floor(cost * 100) / 100] in the arithmetic of
    JS numbers, and it maps the literal 1.2378 to 1.23 and 1.005 to 1.00.
    It does not always round downward: the product [cost * 100] is rounded
    to the nearest binary64 value before the floor is taken, and for a cost
    just below a cent boundary that value is the boundary.  The binary64
    value just below 0.05, which JS writes 0.049999999999999996, is mapped
    to 0.05, and the cost of 3.1 kWh at 0.30 per kWh, which is
    0.9299999999999999, is mapped to 0.93: both results are above the cost,
    where the greatest integers not above 100 times the cost are 4 and
    92. *)
Theorem roundCost_rounds_up_below_a_cent :
  let below5 := S754_finite false 7205759403792793 (-57) in
  let kwh31 := mul (decimal 31 1) (decimal 30 2) in
  (valid_binary prec emax below5 = true
   /\ isFloorOfTimes 100 4 below5
   /\ _roundCost below5 = decimal 5 2
   /\ ltb below5 (_roundCost below5) = true)
  /\ (kwh31 = S754_finite false 8376695306909122 (-53)
      /\ isFloorOfTimes 100 92 kwh31
      /\ _roundCost kwh31 = decimal 93 2
      /\ ltb kwh31 (_roundCost kwh31) = true)
  /\ _roundCost (decimal 12378 4) = decimal 123 2
  /\ _roundCost (decimal 1005 3) = decimal 100 2.
Proof.
  intros below5 kwh31.
  assert (H31 : kwh31 = S754_finite false 8376695306909122 (-53))
    by (vm_compute; reflexivity).
  split; [| split; [| split]].
  - split; [vm_compute; reflexivity |].
    split; [unfold below5, isFloorOfTimes; simpl; lia |].
    split; vm_compute; reflexivity.
  - split; [exact H31 |].
    split; [rewrite H31; unfold isFloorOfTimes; simpl; lia |].
    split; vm_compute; reflexivity.
  - vm_compute; reflexivity.
  - vm_compute; reflexivity.
Qed.

(** C5. For a station without a tariff record the cost calculator returns 0
    whatever kWh total it is given: it raises no error, and after the
    tariff lookup it only writes the error line, so no kWh total is derived
    and nothing is persisted. *)
Theorem calculateTotalCost_without_tariff
    env station transactionDbId totalKwh w :
  reliable env ->
  findByStationId station w = None ->
  let r := run env (_calculateTotalCost station transactionDbId totalKwh) w in
  snd r = inr (ofZ 0)
  /\ trace (fst r) =
       trace w ++ [Called (FindByStationId station);
                   Called (Log (fst (tariffNotFound station))
                             (snd (tariffNotFound station)))]
  /\ logs (fst r) = logs w ++ [tariffNotFound station]
  /\ transactions (fst r) = transactions w
  /\ meterValues (fst r) = meterValues w.
Proof.
  intros Hrel Hnone r. subst r. unfold _calculateTotalCost.
  run_steps Hrel.
  replace (findByStationId station _) with (@None Tariff) by exact (eq_sym Hnone).
  run_steps Hrel.
  rewrite <- app_assoc. repeat split; reflexivity.
Qed.

Lemma calculateTotalCost_without_tariff_witness :
  snd (run Scenario.env0
         (_calculateTotalCost "CS9" 42 (Some (decimal 125 1)))
         Scenario.world0)
  = inr (ofZ 0).
Proof.
  exact (proj1 (calculateTotalCost_without_tariff Scenario.env0 "CS9" 42
                  (Some (decimal 125 1)) Scenario.world0
                  (fun _ _ _ => eq_refl) eq_refl)).
Defined.

(** With a tariff and a truthy kWh total, the total is used as it is. *)
Lemma calculateTotalCost_supplied env station transactionDbId k tariff w :
  reliable env ->
  findByStationId station w = Some tariff ->
  truthy k = true ->
  let r := run env (_calculateTotalCost station transactionDbId (Some k)) w in
  snd r = inr (_roundCost (mul k (pricePerKwh tariff)))
  /\ trace (fst r) =
       trace w ++ [Called (FindByStationId station);
                   tariffFound station tariff; totalKwhLogged k]
  /\ transactions (fst r) = transactions w
  /\ meterValues (fst r) = meterValues w.
Proof.
  intros Hrel Hsome Hk r. subst r. unfold _calculateTotalCost.
  run_steps Hrel.
  replace (findByStationId station _) with (Some tariff)
    by exact (eq_sym Hsome).
  run_steps Hrel. rewrite Hk. simpl. run_steps Hrel.
  rewrite <- !app_assoc. repeat split; reflexivity.
Qed.

(** With a tariff and a falsy or absent kWh total, the total is derived
    from the meter values of the transaction and written back. *)
Lemma calculateTotalCost_derived env station transactionDbId totalKwh
    tariff w :
  reliable env ->
  findByStationId station w = Some tariff ->
  Js.truthyNumber totalKwh = false ->
  let values := readAllMeterValuesByTransactionDataBaseId transactionDbId w in
  let derived := getTotalKwh env values in
  let r := run env (_calculateTotalCost station transactionDbId totalKwh) w in
  snd r = inr (_roundCost (mul derived (pricePerKwh tariff)))
  /\ trace (fst r) =
       trace w ++ [Called (FindByStationId station);
                   tariffFound station tariff;
                   Called (ReadAllMeterValuesByTransactionDataBaseId
                             transactionDbId);
                   Called (GetTotalKwh values);
                   Called (TransactionUpdate derived transactionDbId);
                   totalKwhLogged derived]
  /\ transactions (fst r) =
       transactionUpdate derived transactionDbId (transactions w)
  /\ meterValues (fst r) = meterValues w.
Proof.
  intros Hrel Hsome Hk values derived r. subst r derived values.
  unfold _calculateTotalCost.
  run_steps Hrel.
  replace (findByStationId station _) with (Some tariff)
    by exact (eq_sym Hsome).
  run_steps Hrel.
  destruct totalKwh as [k |]; simpl in Hk; [rewrite Hk; simpl |];
    run_steps Hrel; rewrite <- !app_assoc; repeat split; reflexivity.
Qed.

(** C4, as amended. When the station has an active tariff: a supplied kWh
    total that is truthy (neither 0 nor NaN) gives
    [_roundCost (supplied * pricePerKwh)], and the calculator only looks the
    tariff up and logs, so nothing is derived or written; with no total
    supplied, the total is derived by summing all meter values recorded
    against the transaction database id, written onto the transaction
    record, and the result is [_roundCost (derived * pricePerKwh)].  With a
    price of 0.30 and summed meter values of 12.5 the result is 3.75; with
    a supplied total of 10.0 it is 3.00. *)
Theorem calculateTotalCost_with_tariff env station transactionDbId tariff w :
  reliable env ->
  totalsBySumming env ->
  findByStationId station w = Some tariff ->
  let cost := fun totalKwh =>
    run env (_calculateTotalCost station transactionDbId totalKwh) w in
  let values := readAllMeterValuesByTransactionDataBaseId transactionDbId w in
  let derived := MeterValueUtils.getTotalKwh values in
  (forall k, truthy k = true ->
     snd (cost (Some k)) = inr (_roundCost (mul k (pricePerKwh tariff)))
     /\ trace (fst (cost (Some k))) =
          trace w ++ [Called (FindByStationId station);
                      tariffFound station tariff; totalKwhLogged k]
     /\ transactions (fst (cost (Some k))) = transactions w)
  /\ (snd (cost None) = inr (_roundCost (mul derived (pricePerKwh tariff)))
      /\ trace (fst (cost None)) =
           trace w ++ [Called (FindByStationId station);
                       tariffFound station tariff;
                       Called (ReadAllMeterValuesByTransactionDataBaseId
                                 transactionDbId);
                       Called (GetTotalKwh values);
                       Called (TransactionUpdate derived transactionDbId);
                       totalKwhLogged derived]
      /\ transactions (fst (cost None)) =
           transactionUpdate derived transactionDbId (transactions w))
  /\ (pricePerKwh tariff = decimal 30 2 ->
      derived = decimal 125 1 ->
      snd (cost None) = inr (decimal 375 2))
  /\ (pricePerKwh tariff = decimal 30 2 ->
      snd (cost (Some (decimal 100 1))) = inr (decimal 300 2)).
Proof.
  intros Hrel Hsum Hsome cost values derived.
  pose proof (calculateTotalCost_derived env station transactionDbId None
                tariff w Hrel Hsome eq_refl) as Hnone.
  cbv zeta in Hnone. rewrite !Hsum in Hnone.
  split; [| split; [| split]].
  - intros k Hk.
    destruct (calculateTotalCost_supplied env station transactionDbId k
                tariff w Hrel Hsome Hk) as (H1 & H2 & H3 & _).
    repeat split; assumption.
  - destruct Hnone as (H1 & H2 & H3 & _). repeat split; assumption.
  - intros Hprice Hsummed. destruct Hnone as (H1 & _).
    unfold cost. unfold derived, values in Hsummed.
    rewrite H1, Hprice, Hsummed. reflexivity.
  - intros Hprice.
    destruct (calculateTotalCost_supplied env station transactionDbId
                (decimal 100 1) tariff w Hrel Hsome eq_refl) as (H1 & _).
    unfold cost. rewrite H1, Hprice. reflexivity.
Qed.

Lemma calculateTotalCost_with_tariff_witness :
  MeterValueUtils.getTotalKwh
    (readAllMeterValuesByTransactionDataBaseId 42 Scenario.world0)
  = decimal 125 1
  /\ snd (run Scenario.env0 (_calculateTotalCost "CS1" 42 None)
            Scenario.world0)
     = inr (decimal 375 2)
  /\ snd (run Scenario.env0
            (_calculateTotalCost "CS1" 42 (Some (decimal 100 1)))
            Scenario.world0)
     = inr (decimal 300 2).
Proof.
  destruct (calculateTotalCost_with_tariff Scenario.env0 "CS1" 42
              {| tariff_id := 1; tariff_stationId := "CS1";
                 pricePerKwh := decimal 30 2 |}
              Scenario.world0 (fun _ _ _ => eq_refl) (fun _ => eq_refl)
              eq_refl)
    as (_ & _ & H3 & H4).
  split; [reflexivity |].
  split; [apply H3; reflexivity | apply H4; reflexivity].
Defined.

(** C4 as stated fails for a supplied total of 0: at CS1 (0.30 per kWh,
    meter values recorded against transaction 42) the calculator given 0
    reads the meter values of the transaction, derives the total again and
    writes it onto the record, and what it returns is the cost of the
    derived total and not [_roundCost (0 * 0.30)].  A supplied NaN is
    treated like 0. *)
Lemma calculateTotalCost_supplied_zero_is_rederived :
  let values :=
    readAllMeterValuesByTransactionDataBaseId 42 Scenario.world0 in
  let derived := getTotalKwh Scenario.env0 values in
  let cost := fun totalKwh =>
    run Scenario.env0 (_calculateTotalCost "CS1" 42 totalKwh)
      Scenario.world0 in
  In (Called (ReadAllMeterValuesByTransactionDataBaseId 42))
     (trace (fst (cost (Some (ofZ 0)))))
  /\ In (Called (TransactionUpdate derived 42))
        (trace (fst (cost (Some (ofZ 0)))))
  /\ transactions (fst (cost (Some (ofZ 0))))
     <> transactions Scenario.world0
  /\ snd (cost (Some (ofZ 0)))
     = inr (_roundCost (mul derived (decimal 30 2)))
  /\ snd (cost (Some (ofZ 0)))
     <> inr (_roundCost (mul (ofZ 0) (decimal 30 2)))
  /\ cost (Some S754_nan) = cost (Some (ofZ 0)).
Proof.
  split; [vm_compute; right; right; left; reflexivity |].
  split; [vm_compute; do 4 right; left; reflexivity |].
  split; [vm_compute; discriminate |].
  split; [vm_compute; reflexivity |].
  split; [vm_compute; discriminate |].
  reflexivity.
Qed.

(** C9. With a tariff, a supplied kWh total of 0, like an absent one, is
    not used: the run is the run with no total supplied, so the total is
    derived from the meter values of the transaction and written onto the
    transaction record.  A run that used the supplied total was given a
    truthy, hence nonzero, one. *)
Theorem calculateTotalCost_zero_total_is_rederived
    env station transactionDbId tariff supplied w :
  reliable env ->
  findByStationId station w = Some tariff ->
  supplied = Some (ofZ 0) \/ supplied = None ->
  let cost := fun totalKwh =>
    run env (_calculateTotalCost station transactionDbId totalKwh) w in
  let values := readAllMeterValuesByTransactionDataBaseId transactionDbId w in
  let derived := getTotalKwh env values in
  cost supplied = cost None
  /\ snd (cost supplied)
     = inr (_roundCost (mul derived (pricePerKwh tariff)))
  /\ transactions (fst (cost supplied))
     = transactionUpdate derived transactionDbId (transactions w)
  /\ In (Called (ReadAllMeterValuesByTransactionDataBaseId transactionDbId))
        (trace (fst (cost supplied)))
  /\ (forall k,
        trace (fst (cost (Some k))) =
          trace w ++ [Called (FindByStationId station);
                      tariffFound station tariff; totalKwhLogged k] ->
        truthy k = true /\ k <> ofZ 0).
Proof.
  intros Hrel Hsome Hsupplied cost values derived.
  assert (Hfalsy : Js.truthyNumber supplied = false)
    by (destruct Hsupplied; subst supplied; reflexivity).
  destruct (calculateTotalCost_derived env station transactionDbId supplied
              tariff w Hrel Hsome Hfalsy) as (H1 & H2 & H3 & _).
  split; [| split; [exact H1 | split; [exact H3 | split]]].
  - destruct Hsupplied; subst supplied; [| reflexivity].
    unfold cost, _calculateTotalCost. reflexivity.
  - unfold cost. rewrite H2. apply in_or_app. right. simpl. tauto.
  - intros k Hshort.
    destruct (truthy k) eqn:Hk.
    + split; [reflexivity |]. intro Hzero. subst k. discriminate Hk.
    + destruct (calculateTotalCost_derived env station transactionDbId
                  (Some k) tariff w Hrel Hsome Hk) as (_ & H2' & _).
      unfold cost in Hshort. rewrite H2' in Hshort.
      apply app_inv_head in Hshort. discriminate Hshort.
Qed.

Lemma calculateTotalCost_zero_total_is_rederived_witness :
  run Scenario.env0 (_calculateTotalCost "CS1" 42 (Some (ofZ 0)))
    Scenario.world0
  = run Scenario.env0 (_calculateTotalCost "CS1" 42 None) Scenario.world0.
Proof.
  exact (proj1 (calculateTotalCost_zero_total_is_rederived Scenario.env0
                  "CS1" 42
                  {| tariff_id := 1; tariff_stationId := "CS1";
                     pricePerKwh := decimal 30 2 |}
                  (Some (ofZ 0)) Scenario.world0
                  (fun _ _ _ => eq_refl) eq_refl (or_introl eq_refl))).
Defined.

End CostFacts.

(** ** The TransactionEvent handler *)
Module TransactionEventFacts.
Import JsNumber Ocpp TransactionsModule Observations NumberFacts ProgFacts.

(** C7. For every TransactionEvent message the create-or-update of the
    transaction, keyed by the station and the event, is the first call the
    handler makes after its opening debug line: it is made unconditionally
    and before every reservation update, authorization call and cost
    computation, whatever any call does.  Unless this very call fails, the
    event is in the event table when the handler ends, even when a later
    call fails and the handler throws. *)
Theorem transactionEvent_recorded_first env this message w :
  let station := stationId (context message) in
  let record :=
    CreateOrUpdateTransactionByTransactionEventAndStationId
      (payload message) station in
  let r := run env (_handleTransactionEvent this message) w in
  (exists rest,
      trace (fst r) = trace w ++ received message :: Called record :: rest)
  /\ ((forall w0, fault env unit record w0 = None) ->
      In (station, payload message) (transactionEvents (fst r))).
Proof.
  intros station record r. subst r. unfold _handleTransactionEvent.
  fold station. fold record.
  match goal with
  | |- context [run ?e (bind ?p ?f) ?w] => rewrite (run_bind e p f w)
  end.
  rewrite run_call_any. simpl.
  match goal with
  | |- context [run ?e (bind ?p ?f) ?w] => rewrite (run_bind e p f w)
  end.
  rewrite run_call_any. simpl.
  match goal with
  | |- context [fault env unit record ?w1] =>
      destruct (fault env unit record w1) as [e |] eqn:Hfault
  end.
  - simpl. split.
    + exists []. rewrite <- app_assoc. reflexivity.
    + intro Hok. rewrite Hok in Hfault. discriminate Hfault.
  - match goal with
    | |- context [run env ?p ?w2] =>
        destruct (run_trace env p w2) as [rest Hrest];
        destruct (run_transactionEvents env p w2) as [more Hmore]
    end.
    split.
    + exists rest. rewrite Hrest. simpl. rewrite <- !app_assoc. reflexivity.
    + intros _. rewrite Hmore. simpl.
      apply in_or_app. left. apply in_or_app. right. left. reflexivity.
Qed.

Lemma transactionEvent_recorded_first_witness :
  snd (run Scenario.envAuthorizationDown
         (_handleTransactionEvent (Scenario.config None)
            (Scenario.event Started (Some Scenario.token) None None))
         Scenario.world0)
  = inl (RepositoryError "authorization store unavailable")
  /\ In ("CS1",
         payload (Scenario.event Started (Some Scenario.token) None None))
        (transactionEvents
           (fst (run Scenario.envAuthorizationDown
                   (_handleTransactionEvent (Scenario.config None)
                      (Scenario.event Started (Some Scenario.token)
                         None None))
                   Scenario.world0))).
Proof.
  split; [reflexivity |].
  exact (proj2 (transactionEvent_recorded_first
                  Scenario.envAuthorizationDown (Scenario.config None)
                  (Scenario.event Started (Some Scenario.token) None None)
                  Scenario.world0)
               (fun _ => eq_refl)).
Defined.

Lemma reservationUpdateAllByQuery_terminated transaction reservation
    station rs :
  Forall2 (terminated transaction reservation station) rs
    (reservationUpdateAllByQuery transaction false reservation station rs).
Proof.
  induction rs as [| r rs IH]; simpl; constructor; [| exact IH].
  unfold terminated.
  destruct ((res_id r =? reservation)
            && String.eqb (res_stationId r) station); reflexivity.
Qed.

(** C8, as amended. For a TransactionEvent message that carries a nonzero
    reservation id, the reservation rows with that id and the station of
    the message, and no others, are set inactive and terminated by the
    transaction id of the event.  For a message without a reservation id,
    and for one whose reservation id is 0, the reservation table is left as
    it was and no call that writes it is made. *)
Theorem reservation_terminated_by_transaction env this message w :
  reliable env ->
  let station := stationId (context message) in
  let transaction := transactionId (transactionInfo (payload message)) in
  let r := run env (_handleTransactionEvent this message) w in
  let untouched :=
    reservations (fst r) = reservations w
    /\ exists rest,
         trace (fst r) = trace w ++ rest /\ Forall noReservationWrite rest in
  match reservationId (payload message) with
  | Some reservation =>
      if reservation =? 0 then untouched
      else Forall2 (terminated transaction reservation station)
             (reservations w) (reservations (fst r))
  | None => untouched
  end.
Proof.
  intros Hrel station transaction r untouched.
  assert (Hquiet :
            Js.truthyInt (reservationId (payload message)) = false ->
            untouched).
  { intro Hfalsy. subst untouched r. split.
    - apply run_keeps; [reflexivity |].
      apply Every_impl with (P := fun X c => writesReservations c = false);
        [intros X c; apply keeps_reservations |].
      unfold _handleTransactionEvent.
      destruct (reservationId (payload message)) as [rid |];
        [simpl in Hfalsy; unfold Js.truthyInt; rewrite Hfalsy |]; every_tac.
    - apply (run_trace_every env
               (fun X c => writesReservations c = false)).
      unfold _handleTransactionEvent.
      destruct (reservationId (payload message)) as [rid |];
        [simpl in Hfalsy; unfold Js.truthyInt; rewrite Hfalsy |]; every_tac. }
  destruct (reservationId (payload message)) as [rid |] eqn:Hrid;
    [| apply Hquiet; reflexivity].
  destruct (rid =? 0) eqn:Hz; [apply Hquiet; simpl; rewrite Hz; reflexivity |].
  subst r. unfold _handleTransactionEvent. rewrite Hrid. simpl.
  rewrite Hz. simpl. run_steps Hrel.
  match goal with
  | |- context [reservations (fst (run env ?p ?w3))] =>
      rewrite (run_keeps env reservations p w3)
  end.
  - simpl. apply reservationUpdateAllByQuery_terminated.
  - reflexivity.
  - apply Every_impl with (P := fun X c => writesReservations c = false);
      [intros X c; apply keeps_reservations |].
    every_tac.
Qed.

Lemma reservation_terminated_by_transaction_witness :
  Forall2 (terminated "T1" 7 "CS1")
    (reservations Scenario.world0)
    (reservations
       (fst (run Scenario.env0
               (_handleTransactionEvent (Scenario.config None)
                  (Scenario.event Started (Some Scenario.token) (Some 7)
                     None))
               Scenario.world0))).
Proof.
  exact (reservation_terminated_by_transaction Scenario.env0
           (Scenario.config None)
           (Scenario.event Started (Some Scenario.token) (Some 7) None)
           Scenario.world0 (fun _ _ _ => eq_refl)).
Defined.

(** C8 as stated fails for the reservation id 0: the event carries it, and
    the reservation 0 of CS1 stays active and not terminated. *)
Lemma reservation_zero_is_not_terminated :
  let message :=
    Scenario.event Started (Some Scenario.token) (Some 0) None in
  let r := run Scenario.env0
             (_handleTransactionEvent (Scenario.config None) message)
             Scenario.world0 in
  reservationId (payload message) = Some 0
  /\ In {| res_id := 0; res_stationId := "CS1"; res_isActive := true;
           res_terminatedByTransaction := None |}
        (reservations (fst r))
  /\ reservations (fst r) = reservations Scenario.world0.
Proof.
  split; [reflexivity |].
  split; [vm_compute; right; right; left; reflexivity |].
  vm_compute. reflexivity.
Qed.

(** C1, as amended. For a TransactionEvent message that carries an identity
    token, the authorization result is sent as the response, and one
    cost-updater timer is armed for the transaction exactly when the event
    type is Started, the status of the authorization result is Accepted and
    the configured interval is truthy (configured, and neither 0 nor NaN);
    otherwise none is armed.  Every interval greater than 0 is truthy, and
    0 is not. *)
Theorem costUpdater_armed env this message tok w :
  reliable env ->
  idToken (payload message) = Some tok ->
  let r := run env (_handleTransactionEvent this message) w in
  exists wa,
    let response :=
      authorizeIdToken env (payload message) (context message) wa in
    let accepted :=
      eventTypeEqb (eventType (payload message)) Started
      && isAccepted (option_map status (idTokenInfo response)) in
    sent (fst r) =
      sent w ++ [CallResult (context message)
                   (TransactionEventResult response)]
    /\ timers (fst r) =
         timers w ++
         match _costUpdatedInterval this with
         | Some interval =>
             if accepted && truthy interval
             then [costTimer message interval]
             else []
         | None => []
         end
    /\ (forall interval, ltb (ofZ 0) interval = true ->
                         truthy interval = true)
    /\ truthy (ofZ 0) = false.
Proof.
  intros Hrel Htok r. subst r.
  unfold _handleTransactionEvent. run_steps Hrel.
  run_over Hrel u w3.
  rewrite Htok. run_steps Hrel.
  exists (setTrace
            (trace w3 ++
             [Called (AuthorizeIdToken (payload message)
                        (context message))]) w3).
  cbv zeta.
  split; [| split; [| split; [exact positive_is_truthy | reflexivity]]].
  - destruct (_costUpdatedInterval this) as [interval |];
      [match goal with
       | |- context [if ?b then _ else _] => destruct b
       end |];
      unfold _updateCost; run_steps Hrel; rewrite Hsent; reflexivity.
  - destruct (_costUpdatedInterval this) as [interval |];
      [match goal with
       | |- context [if ?b then _ else _] => destruct b
       end |];
      unfold _updateCost; run_steps Hrel; rewrite Htimers;
      rewrite ?app_nil_r; reflexivity.
Qed.

Lemma costUpdater_armed_witness :
  let message := Scenario.event Started (Some Scenario.token) None None in
  timers (fst (run Scenario.env0
                 (_handleTransactionEvent
                    (Scenario.config (Some (ofZ 60))) message)
                 Scenario.world0))
  = [costTimer message (ofZ 60)].
Proof.
  destruct (costUpdater_armed Scenario.env0
              (Scenario.config (Some (ofZ 60)))
              (Scenario.event Started (Some Scenario.token) None None)
              Scenario.token Scenario.world0
              (fun _ _ _ => eq_refl) eq_refl)
    as (wa & _ & Htimers & _).
  exact Htimers.
Defined.

(** C1 as stated fails for a negative interval: with an interval of -1 the
    Started event with an accepted token arms a timer, although the
    interval is not greater than 0. *)
Lemma negative_interval_arms_costUpdater :
  let message := Scenario.event Started (Some Scenario.token) None None in
  timers (fst (run Scenario.env0
                 (_handleTransactionEvent
                    (Scenario.config (Some (ofZ (-1)))) message)
                 Scenario.world0))
  = [costTimer message (ofZ (-1))]
  /\ ltb (ofZ 0) (ofZ (-1)) = false.
Proof. split; vm_compute; reflexivity. Qed.

Lemma invalid_signature_fails_validation env station values :
  (exists v, In v values /\ signatureValid env station v = false) ->
  validateMeterValues env station values = false.
Proof.
  intros (v & Hin & Hv). unfold validateMeterValues.
  destruct (forallb (signatureValid env station) values) eqn:Hall;
    [| reflexivity].
  rewrite forallb_forall in Hall. rewrite (Hall v Hin) in Hv.
  discriminate Hv.
Qed.

(** C3, as amended. For a TransactionEvent message without an identity
    token whose meter values include one with an invalid signature, the
    handler returns without an error; the calls it ends with are the
    validation, the warning line and the sending of the response, so the
    warning is the last line logged and the response, a plain
    TransactionEvent result, is the one message added to the outbox. *)
Theorem anonymous_event_invalid_signature env this message values w :
  reliable env ->
  idToken (payload message) = None ->
  meterValue (payload message) = Some values ->
  (exists v, In v values
             /\ signatureValid env (stationId (context message)) v = false) ->
  let r := run env (_handleTransactionEvent this message) w in
  snd r = inr tt
  /\ (exists earlier, logs (fst r) = earlier ++ [invalidSignatureWarning])
  /\ exists response,
       sent (fst r) =
         sent w ++ [CallResult (context message)
                      (TransactionEventResult response)]
       /\ exists before,
            trace (fst r) =
              before ++
              [Called (ValidateMeterValues (stationId (context message))
                         values);
               Called (Log (fst invalidSignatureWarning)
                         (snd invalidSignatureWarning));
               Called (SendCallResultWithMessage (context message)
                         (TransactionEventResult response)
                         transactionResponseSent)].
Proof.
  intros Hrel Htok Hmv Hinvalid r. subst r.
  apply invalid_signature_fails_validation in Hinvalid.
  unfold _handleTransactionEvent. run_steps Hrel.
  run_over Hrel u w3.
  rewrite Htok. run_steps Hrel.
  run_over Hrel response1 w5.
  run_over Hrel response2 w6.
  rewrite Hmv.
  run_step Hrel. run_step Hrel. simpl. rewrite Hinvalid. simpl.
  run_steps Hrel.
  split; [reflexivity |].
  split; [eexists; reflexivity |].
  exists response2. rewrite Hsent1, Hsent0, Hsent.
  split; [reflexivity |].
  exists (trace w6). rewrite <- !app_assoc. reflexivity.
Qed.

Lemma anonymous_event_invalid_signature_witness :
  snd (run Scenario.env0
         (_handleTransactionEvent (Scenario.config None)
            (Scenario.event Updated None None
               (Some [Scenario.reading (ofZ 5) (Some "tampered")])))
         Scenario.world0)
  = inr tt.
Proof.
  exact (proj1 (anonymous_event_invalid_signature Scenario.env0
                  (Scenario.config None)
                  (Scenario.event Updated None None
                     (Some [Scenario.reading (ofZ 5) (Some "tampered")]))
                  [Scenario.reading (ofZ 5) (Some "tampered")]
                  Scenario.world0
                  (fun _ _ _ => eq_refl) eq_refl eq_refl
                  (ex_intro _ (Scenario.reading (ofZ 5) (Some "tampered"))
                     (conj (or_introl eq_refl) eq_refl)))).
Defined.

(** C3 as stated fails for a message with an identity token: its meter
    value has an invalid signature, the handler returns and answers, but it
    validates nothing and logs no warning. *)
Lemma event_with_token_is_not_validated :
  let values := [Scenario.reading (ofZ 5) (Some "tampered")] in
  let message :=
    Scenario.event Updated (Some Scenario.token) None (Some values) in
  let r := run Scenario.env0
             (_handleTransactionEvent (Scenario.config None) message)
             Scenario.world0 in
  validateMeterValues Scenario.env0 "CS1" values = false
  /\ snd r = inr tt
  /\ ~ In invalidSignatureWarning (logs (fst r))
  /\ Forall (fun made => match made with
                         | Called c => validates c = false
                         end) (trace (fst r)).
Proof.
  split; [reflexivity |].
  split; [reflexivity |].
  split.
  - vm_compute. intros [H | []]. discriminate H.
  - vm_compute. repeat constructor.
Qed.

End TransactionEventFacts.

(** ** The MeterValues handler *)
Module MeterValuesFacts.
Import JsNumber Ocpp TransactionsModule Observations ProgFacts
  TransactionEventFacts.

(** When no insert fails, every call is made, every row is in the table
    and every promise is fulfilled. *)
Lemma createMeterValues_run env values w :
  reliable env ->
  run env (arrayMap (fun v => call (CreateMeterValue v)) values) w =
  (setMeterValues (meterValues w ++ rowsOf None values)
     (setTrace (trace w ++ created values) w),
   inr (map (fun _ => Fulfilled) values)).
Proof.
  intro Hrel. revert w.
  induction values as [| v values IH]; intro w; simpl.
  - rewrite run_Ret, !app_nil_r. destruct w; reflexivity.
  - run_step Hrel. simpl. rewrite Hrel. simpl.
    rewrite run_bind, IH. simpl. run_step Hrel.
    unfold setMeterValues, setTrace, createMeterValue. simpl.
    rewrite <- !app_assoc. reflexivity.
Qed.

Lemma promiseAll_fulfilled {A : Type} (l : list A) :
  promiseAll (map (fun _ => Fulfilled) l) = Ret tt.
Proof.
  unfold promiseAll.
  assert (H : firstRejected (map (fun _ : A => Fulfilled) l) = None)
    by (induction l as [| a l IH]; [reflexivity | exact IH]).
  rewrite H. reflexivity.
Qed.

(** The MeterValues handler up to the validation, when no insert fails. *)
Ltac inserts_done Hrel :=
  match goal with
  | |- context [run ?e (bind (arrayMap ?g ?l) ?f) ?w1] =>
      rewrite (run_bind e (arrayMap g l) f w1),
        (createMeterValues_run e l w1 Hrel)
  end;
  cbv beta iota;
  rewrite promiseAll_fulfilled;
  run_step Hrel.

(** C2. For a MeterValues submission in which at least one meter value has
    an invalid signature, and whose store calls succeed, the handler throws
    an OcppError with the code SecurityError for the message's correlation
    id and puts no response in the outbox; every meter value of the payload
    has been appended to the meter-value table, by calls that all precede
    the validation after which the error is thrown. *)
Theorem meterValues_invalid_signature_rejected env message w :
  reliable env ->
  (exists v, In v (mvr_meterValue (payload message))
             /\ signatureValid env (stationId (context message)) v = false) ->
  let values := mvr_meterValue (payload message) in
  let r := run env (_handleMeterValues message) w in
  snd r = inl (OcppError (correlationId (context message)) SecurityError
                 invalidSignature)
  /\ sent (fst r) = sent w
  /\ meterValues (fst r) = meterValues w ++ rowsOf None values
  /\ trace (fst r) =
       trace w
       ++ [Called (Log Debug [Text "MeterValues received:";
                              MeterValuesMessage message])]
       ++ created values
       ++ [Called (ValidateMeterValues (stationId (context message))
                     values)].
Proof.
  intros Hrel Hinvalid values r. subst r.
  apply invalid_signature_fails_validation in Hinvalid.
  unfold _handleMeterValues. fold values. run_steps Hrel.
  inserts_done Hrel.
  simpl. run_step Hrel. simpl. fold values in Hinvalid.
  rewrite Hinvalid. simpl. run_steps Hrel.
  rewrite <- !app_assoc. repeat split; reflexivity.
Qed.

Lemma meterValues_invalid_signature_rejected_witness :
  let values :=
    [Scenario.reading (ofZ 5) None;
     Scenario.reading (decimal 75 1) (Some "tampered")] in
  let r :=
    run Scenario.env0
      (_handleMeterValues
         {| context := Scenario.ctx0;
            payload := {| mvr_evseId := 1; mvr_meterValue := values |} |})
      Scenario.world0 in
  snd r = inl (OcppError "c-1" SecurityError invalidSignature)
  /\ sent (fst r) = []
  /\ meterValues (fst r)
     = meterValues Scenario.world0 ++ rowsOf None values.
Proof.
  destruct (meterValues_invalid_signature_rejected Scenario.env0
              {| context := Scenario.ctx0;
                 payload :=
                   {| mvr_evseId := 1;
                      mvr_meterValue :=
                        [Scenario.reading (ofZ 5) None;
                         Scenario.reading (decimal 75 1)
                           (Some "tampered")] |} |}
              Scenario.world0 (fun _ _ _ => eq_refl)
              (ex_intro _ (Scenario.reading (decimal 75 1) (Some "tampered"))
                 (conj (or_intror (or_introl eq_refl)) eq_refl)))
    as (H1 & H2 & H3 & _).
  repeat split; assumption.
Defined.

End MeterValuesFacts.

(** ** The security-event repository *)
Module SecurityEventFacts.
Import SecurityEventRepository Observations.

Lemma truthy_rendered toISOString instantOf d :
  rendered toISOString instantOf (Some d) ->
  truthy (option_map toISOString (Some d)) = true.
Proof.
  intros [Hne _]. simpl. destruct (toISOString d); [contradiction |].
  reflexivity.
Qed.

Lemma timestampSelected_withinBounds toISOString instantOf from to e :
  rendered toISOString instantOf from ->
  rendered toISOString instantOf to ->
  timestampSelected instantOf
    (generateTimestampQuery (option_map toISOString from)
       (option_map toISOString to)) e
  = withinBounds from to (se_timestamp e).
Proof.
  intros Hfrom Hto. unfold generateTimestampQuery.
  destruct from as [lo |], to as [hi |].
  - rewrite (truthy_rendered _ _ _ Hfrom), (truthy_rendered _ _ _ Hto).
    simpl. destruct Hfrom as [_ ->], Hto as [_ ->]. reflexivity.
  - rewrite (truthy_rendered _ _ _ Hfrom).
    simpl. destruct Hfrom as [_ ->]. reflexivity.
  - rewrite (truthy_rendered _ _ _ Hto).
    simpl. destruct Hto as [_ ->]. reflexivity.
  - reflexivity.
Qed.

(** C10. [readByStationIdAndTimestamps] returns exactly the security events
    of the table that have the given station id and whose timestamp is
    within the given bounds: any timestamp when no bound is given,
    [timestamp <= to] when only [to] is given, [from <= timestamp] when only
    [from] is given, and [from <= timestamp <= to] when both are. *)
Theorem readByStationIdAndTimestamps_exact
    toISOString instantOf station from to table :
  rendered toISOString instantOf from ->
  rendered toISOString instantOf to ->
  let result :=
    readByStationIdAndTimestamps toISOString instantOf station
      from to table in
  result =
    filter (fun e => String.eqb (se_stationId e) station
                     && withinBounds from to (se_timestamp e)) table
  /\ forall e,
       In e result <->
       In e table
       /\ se_stationId e = station
       /\ match from, to with
          | None, None => True
          | None, Some hi => se_timestamp e <= hi
          | Some lo, None => lo <= se_timestamp e
          | Some lo, Some hi => lo <= se_timestamp e <= hi
          end.
Proof.
  intros Hfrom Hto result.
  assert (Hresult :
            result =
              filter (fun e => String.eqb (se_stationId e) station
                               && withinBounds from to (se_timestamp e))
                     table).
  { subst result.
    unfold readByStationIdAndTimestamps, readAllByQuery.
    apply filter_ext. intro e.
    rewrite (timestampSelected_withinBounds _ _ _ _ e Hfrom Hto).
    reflexivity. }
  split; [exact Hresult |].
  intro e. rewrite Hresult, filter_In, andb_true_iff, String.eqb_eq.
  unfold withinBounds.
  destruct from as [lo |], to as [hi |];
    rewrite ?andb_true_iff, ?Z.leb_le; tauto.
Qed.

Lemma readByStationIdAndTimestamps_exact_witness :
  map se_timestamp
    (readByStationIdAndTimestamps Iso8601.toISOString Iso8601.instantOf
       "CS1" (Some 1714557600000) (Some 1714561200000)
       Iso8601.securityEvents)
  = [1714557600000; 1714561200000].
Proof.
  rewrite (proj1 (readByStationIdAndTimestamps_exact
                    Iso8601.toISOString Iso8601.instantOf "CS1"
                    (Some 1714557600000) (Some 1714561200000)
                    Iso8601.securityEvents
                    (conj (fun H => eq_ind "2024-05-01T10:00:00.000Z"
                                      (fun s => match s with
                                                | EmptyString => False
                                                | String _ _ => True
                                                end) I "" H)
                          eq_refl)
                    (conj (fun H => eq_ind "2024-05-01T11:00:00.000Z"
                                      (fun s => match s with
                                                | EmptyString => False
                                                | String _ _ => True
                                                end) I "" H)
                          eq_refl))).
  reflexivity.
Defined.

End SecurityEventFacts.

(** ** The periodic cost updater *)
Module CostUpdaterFacts.
Import JsNumber Ocpp TransactionsModule Observations NumberFacts ProgFacts
  CostFacts.

(** X1. A tick of the cost updater for a transaction that is not found, or
    is found inactive, makes the one read and nothing else: it returns,
    sends no CostUpdated, computes no cost and leaves every table alone. *)
Theorem tick_without_active_transaction env t w :
  reliable env ->
  match readTransactionByStationIdAndTransactionId
          (timer_stationId t) (timer_transactionId t) w with
  | Some transaction => tx_isActive transaction = false
  | None => True
  end ->
  let r := run env (costUpdatedTick t) w in
  snd r = inr tt
  /\ trace (fst r) =
       trace w ++ [Called (ReadTransactionByStationIdAndTransactionId
                             (timer_stationId t) (timer_transactionId t))]
  /\ sent (fst r) = sent w
  /\ transactions (fst r) = transactions w
  /\ logs (fst r) = logs w.
Proof.
  intros Hrel Hidle r. subst r. unfold costUpdatedTick.
  run_steps Hrel.
  match goal with
  | |- context [readTransactionByStationIdAndTransactionId ?s ?i ?w1] =>
      change (readTransactionByStationIdAndTransactionId s i w1)
        with (readTransactionByStationIdAndTransactionId s i w)
  end.
  destruct (readTransactionByStationIdAndTransactionId
              (timer_stationId t) (timer_transactionId t) w)
    as [transaction |].
  - rewrite Hidle. run_steps Hrel. repeat split; reflexivity.
  - run_steps Hrel. repeat split; reflexivity.
Qed.

Lemma tick_without_active_transaction_witness :
  sent (fst (run Scenario.env0
               (costUpdatedTick
                  {| timer_stationId := "CS1"; timer_transactionId := "T9";
                     timer_tenantId := "tenant";
                     timer_delay := ofZ 60000 |})
               Scenario.world0))
  = [].
Proof.
  exact (proj1 (proj2 (proj2
           (tick_without_active_transaction Scenario.env0
              {| timer_stationId := "CS1"; timer_transactionId := "T9";
                 timer_tenantId := "tenant"; timer_delay := ofZ 60000 |}
              Scenario.world0 (fun _ _ _ => eq_refl) I)))).
Defined.

(** X2. A tick for an active transaction at a station with a tariff sends
    exactly one CostUpdated request, to the station and tenant of the timer
    and for the transaction id of the record.  Its cost is computed from a
    total derived afresh from the meter values, whatever total the record
    holds, and that total is written onto the record. *)
Theorem tick_with_active_transaction env t transaction tariff w :
  reliable env ->
  readTransactionByStationIdAndTransactionId
    (timer_stationId t) (timer_transactionId t) w = Some transaction ->
  tx_isActive transaction = true ->
  findByStationId (timer_stationId t) w = Some tariff ->
  let derived :=
    getTotalKwh env
      (readAllMeterValuesByTransactionDataBaseId (tx_id transaction) w) in
  let r := run env (costUpdatedTick t) w in
  snd r = inr tt
  /\ sent (fst r) =
       sent w ++
       [CallCostUpdated (timer_stationId t) (timer_tenantId t)
          {| cu_totalCost := _roundCost (mul derived (pricePerKwh tariff));
             cu_transactionId := tx_transactionId transaction |}]
  /\ transactions (fst r) =
       transactionUpdate derived (tx_id transaction) (transactions w).
Proof.
  intros Hrel Hread Hactive Htariff derived r. subst r derived.
  unfold costUpdatedTick. run_steps Hrel.
  match goal with
  | |- context [readTransactionByStationIdAndTransactionId ?s ?i ?w1] =>
      change (readTransactionByStationIdAndTransactionId s i w1)
        with (readTransactionByStationIdAndTransactionId s i w)
  end.
  rewrite Hread, Hactive.
  match goal with
  | |- context [run env (bind (_calculateTotalCost ?s ?i None) ?f) ?w1] =>
      destruct (calculateTotalCost_derived env s i None tariff w1 Hrel
                  Htariff eq_refl) as (Hcost & _ & Htx & _);
      rewrite (run_bind_returned env (_calculateTotalCost s i None) f w1
                 _ Hcost);
      assert (Hsent :
                sent (fst (run env (_calculateTotalCost s i None) w1))
                = sent w)
        by (transitivity (sent w1); [keeps_tac @keeps_sent | reflexivity]);
      set (w2 := fst (run env (_calculateTotalCost s i None) w1)) in *;
      clearbody w2
  end.
  run_steps Hrel. rewrite Hsent, Htx. repeat split; reflexivity.
Qed.

Lemma tick_with_active_transaction_witness :
  sent (fst (run Scenario.env0
               (costUpdatedTick
                  {| timer_stationId := "CS1"; timer_transactionId := "T1";
                     timer_tenantId := "tenant";
                     timer_delay := ofZ 60000 |})
               Scenario.world0))
  = [CallCostUpdated "CS1" "tenant"
       {| cu_totalCost := decimal 375 2; cu_transactionId := "T1" |}].
Proof.
  exact (proj1 (proj2
           (tick_with_active_transaction Scenario.env0
              {| timer_stationId := "CS1"; timer_transactionId := "T1";
                 timer_tenantId := "tenant"; timer_delay := ofZ 60000 |}
              {| tx_id := 42; tx_stationId := "CS1";
                 tx_transactionId := "T1"; tx_isActive := true;
                 tx_totalKwh := None |}
              {| tariff_id := 1; tariff_stationId := "CS1";
                 pricePerKwh := decimal 30 2 |}
              Scenario.world0 (fun _ _ _ => eq_refl)
              eq_refl eq_refl eq_refl))).
Defined.

End CostUpdaterFacts.

(** ** One response per request *)
Module ResponseFacts.
Import JsNumber Ocpp TransactionsModule Observations Conduct ProgFacts.

Lemma Quiet_run env {R : Type} (p : Prog R) w :
  Quiet p ->
  (exists r, snd (run env p w) = inr r)
  /\ sent (fst (run env p w)) = sent w.
Proof.
  revert w. induction p as [r | e | X c k IH]; intros w Hq.
  - split; [exists r |]; reflexivity.
  - contradiction.
  - destruct Hq as (Haw & Hs & Hk).
    unfold run; fold (@run env R). rewrite Haw.
    pose proof (keeps_sent c Hs env (setTrace (trace w ++ [Called c]) w))
      as Hc.
    destruct (exec env c _) as [x w2]. simpl in Hc.
    destruct (IH x w2 (Hk x)) as [Hr Hsent].
    split; [exact Hr | rewrite Hsent; exact Hc].
Qed.

(** A program that responds once has, whatever fails, sent exactly the
    one result when it returns and nothing when it throws. *)
Lemma RespondsOnce_run env ctx kind {R : Type} (p : Prog R) w :
  RespondsOnce ctx kind p ->
  match snd (run env p w) with
  | inr _ =>
      exists response,
        kind response = true
        /\ sent (fst (run env p w)) = sent w ++ [CallResult ctx response]
  | inl _ => sent (fst (run env p w)) = sent w
  end.
Proof.
  revert w. induction p as [r | e | X c k IH]; intros w Hp.
  - contradiction.
  - reflexivity.
  - unfold run; fold (@run env R).
    destruct Hp as [[Hresp Hq] | [Hs Hk]].
    + destruct c; try contradiction. destruct Hresp as [-> Hkind].
      simpl.
      match goal with
      | |- context [run env (k tt) ?w2] =>
          destruct (Quiet_run env (k tt) w2 (Hq tt)) as [[r Hr] Hsent]
      end.
      rewrite Hr. exists response. split; [exact Hkind |].
      rewrite Hsent. reflexivity.
    + destruct (if awaited c then fault env X c _ else None).
      * reflexivity.
      * pose proof (keeps_sent c Hs env
                      (setTrace (trace w ++ [Called c]) w)) as Hc.
        destruct (exec env c _) as [x w2]. simpl in Hc.
        specialize (IH x w2 (Hk x)).
        destruct (snd (run env (k x) w2)).
        -- rewrite IH. exact Hc.
        -- destruct IH as (response & Hkind & Hsent).
           exists response. split; [exact Hkind |].
           rewrite Hsent, Hc. reflexivity.
Qed.

Lemma RespondsOnce_bind ctx kind {A B : Type} (p : Prog A)
    (f : A -> Prog B) :
  Every (fun X c => sends c = false) p ->
  (forall a, RespondsOnce ctx kind (f a)) ->
  RespondsOnce ctx kind (bind p f).
Proof.
  induction p as [a | e | X c k IH]; intros Hp Hf.
  - apply Hf.
  - exact I.
  - destruct Hp as [Hc Hk]. right. split; [exact Hc |].
    intro x. apply IH; [apply Hk | exact Hf].
Qed.

Lemma RespondsOnce_send ctx kind response onSent :
  kind response = true ->
  RespondsOnce ctx kind
    (call (SendCallResultWithMessage ctx response onSent)).
Proof.
  intro Hkind. left. split; [split; [reflexivity | exact Hkind] |].
  intro x. exact I.
Qed.

Lemma RespondsOnce_send_then ctx kind response onSent {B : Type}
    (f : unit -> Prog B) :
  kind response = true ->
  (forall x, Quiet (f x)) ->
  RespondsOnce ctx kind
    (bind (call (SendCallResultWithMessage ctx response onSent)) f).
Proof.
  intros Hkind Hq. left. split; [split; [reflexivity | exact Hkind] |].
  exact Hq.
Qed.

Lemma Every_arrayMap P {A X : Type} (f : A -> Prog X) (l : list A) :
  (forall a, Every P (f a)) -> Every P (arrayMap f l).
Proof.
  intro Hf. induction l as [| a l IH]; simpl; [exact I |].
  apply Every_bind; [apply Hf | intros x].
  apply Every_bind; [exact IH | intros xs; exact I].
Qed.

Lemma Every_promiseAll P promises : Every P (promiseAll promises).
Proof.
  unfold promiseAll.
  destruct (firstRejected promises) as [[reason time] |]; exact I.
Qed.

Ltac responds_tac :=
  repeat first
    [ intro
    | progress cbv beta zeta
    | match goal with
      | |- RespondsOnce _ _ (Throw _) => exact I
      | |- RespondsOnce _ _
             (bind (call (SendCallResultWithMessage _ _ _)) _) =>
          apply RespondsOnce_send_then; [reflexivity |]
      | |- RespondsOnce _ _ (call (SendCallResultWithMessage _ _ _)) =>
          apply RespondsOnce_send; reflexivity
      | |- RespondsOnce _ _ (bind _ _) =>
          apply RespondsOnce_bind; [every_tac |]
      | |- RespondsOnce _ _ (match ?x with _ => _ end) => destruct x
      | |- Quiet (match ?x with _ => _ end) => destruct x
      | |- Quiet (_updateCost _ _ _ _) =>
          unfold _updateCost, call; simpl; repeat split
      | |- Quiet (Ret _) => exact I
      end ].

(** X4. Whatever any call does, failures included, the TransactionEvent
    handler that returns has put exactly one message in the outbox, a
    TransactionEvent result for the context of the request, and the handler
    that throws has put none: a request is never answered twice, and never
    answered and failed. *)
Theorem transactionEvent_answered_once env this message w :
  let r := run env (_handleTransactionEvent this message) w in
  match snd r with
  | inr _ =>
      exists response,
        isTransactionEventResult response = true
        /\ sent (fst r) = sent w ++ [CallResult (context message) response]
  | inl _ => sent (fst r) = sent w
  end.
Proof.
  intro r. subst r. apply RespondsOnce_run.
  unfold _handleTransactionEvent. responds_tac.
Qed.

(** X5. Whatever any call does, failures included, the MeterValues handler
    that returns has put exactly one message in the outbox, a MeterValues
    result for the context of the request, and the handler that throws, on
    a failed call or on an invalid signature, has put none. *)
Theorem meterValues_answered_once env message w :
  let r := run env (_handleMeterValues message) w in
  match snd r with
  | inr _ =>
      exists response,
        isMeterValuesResult response = true
        /\ sent (fst r) = sent w ++ [CallResult (context message) response]
  | inl _ => sent (fst r) = sent w
  end.
Proof.
  intro r. subst r. apply RespondsOnce_run.
  unfold _handleMeterValues.
  apply RespondsOnce_bind; [every_tac |]. intros _. cbv zeta.
  apply RespondsOnce_bind.
  - apply Every_arrayMap. intro v. apply Every_call. reflexivity.
  - intro promises.
    apply RespondsOnce_bind; [apply Every_promiseAll |]. responds_tac.
Qed.

End ResponseFacts.

(** ** What the handlers touch *)
Module HandlerFacts.
Import JsNumber Ocpp TransactionsModule Observations Conduct ProgFacts
  ResponseFacts MeterValuesFacts.

Lemma keeps_transactionEvents {X : Type} (c : Cmd X) :
  recordsEvent c = false -> Keeps transactionEvents X c.
Proof.
  destruct c; intros H env w; try discriminate H; simpl;
    try destruct (fault env _ _ _); reflexivity.
Qed.

Lemma keeps_transactions {X : Type} (c : Cmd X) :
  writesTransactions c = false -> Keeps transactions X c.
Proof.
  destruct c; intros H env w; try discriminate H; simpl;
    try destruct (fault env _ _ _); reflexivity.
Qed.

Lemma keeps_tariffs {X : Type} (c : Cmd X) : Keeps tariffs X c.
Proof.
  destruct c; intros env w; simpl; try destruct (fault env _ _ _);
    reflexivity.
Qed.

Lemma keeps_meterValues {X : Type} (c : Cmd X) :
  writesMeterValues c = false -> Keeps meterValues X c.
Proof.
  destruct c; intros H env w; try discriminate H; simpl;
    try destruct (fault env _ _ _); reflexivity.
Qed.

Lemma all_valid_passes_validation env station values :
  (forall v, In v values -> signatureValid env station v = true) ->
  validateMeterValues env station values = true.
Proof. intro H. unfold validateMeterValues. apply forallb_forall. exact H. Qed.

(** X6. A MeterValues submission whose meter values all pass the signature
    check is acknowledged when no call fails: the handler returns, the
    insert of every meter value is issued before the validation, the
    meter-value table holds the rows it held and one row for every meter
    value of the payload, whatever the order in which the inserts
    completed, and the one message sent is the MeterValues result for the
    request, after the validation. *)
Theorem meterValues_valid_acknowledged env message w :
  reliable env ->
  (forall v, In v (mvr_meterValue (payload message)) ->
             signatureValid env (stationId (context message)) v = true) ->
  let values := mvr_meterValue (payload message) in
  let r := run env (_handleMeterValues message) w in
  snd r = inr tt
  /\ sent (fst r) = sent w ++ [CallResult (context message) MeterValuesResult]
  /\ Permutation (meterValues (fst r))
       (meterValues w ++ rowsOf None values)
  /\ exists before,
       trace (fst r) =
         before
         ++ created values
         ++ [Called (ValidateMeterValues (stationId (context message))
                       values);
             Called (SendCallResultWithMessage (context message)
                       MeterValuesResult
                       (Debug, [Text "MeterValues response sent: "]))].
Proof.
  intros Hrel Hvalid values r. subst r.
  apply all_valid_passes_validation in Hvalid.
  unfold _handleMeterValues. fold values. run_steps Hrel.
  inserts_done Hrel.
  simpl. run_step Hrel. simpl. fold values in Hvalid.
  rewrite Hvalid. simpl. run_steps Hrel.
  split; [reflexivity |]. split; [reflexivity |].
  split; [apply Permutation_refl |].
  exists (trace w ++ [Called (Log Debug [Text "MeterValues received:";
                                         MeterValuesMessage message])]).
  rewrite <- !app_assoc. reflexivity.
Qed.

Lemma meterValues_valid_acknowledged_witness :
  let values :=
    [Scenario.reading (ofZ 5) None;
     Scenario.reading (decimal 75 1) (Some "signed")] in
  let message :=
    {| context := Scenario.ctx0;
       payload := {| mvr_evseId := 1; mvr_meterValue := values |} |} in
  let r := run Scenario.env0 (_handleMeterValues message) Scenario.world0 in
  snd r = inr tt
  /\ sent (fst r) = [CallResult Scenario.ctx0 MeterValuesResult]
  /\ Permutation (meterValues (fst r))
       (meterValues Scenario.world0 ++ rowsOf None values).
Proof.
  intros values message r.
  assert (Hvalid :
            forall v, In v (mvr_meterValue (payload message)) ->
                      signatureValid Scenario.env0
                        (stationId (context message)) v = true)
    by (intros v [<- | [<- | []]]; reflexivity).
  destruct (meterValues_valid_acknowledged Scenario.env0 message
              Scenario.world0 (fun _ _ _ => eq_refl) Hvalid)
    as (H1 & H2 & H3 & _).
  repeat split; assumption.
Defined.

(** X7. Whatever any call does, the MeterValues handler leaves the
    transaction table, the event table, the reservations and the timers as
    they were: it only appends meter values, logs and answers. *)
Theorem meterValues_touches_only_meter_values env message w :
  let r := run env (_handleMeterValues message) w in
  transactions (fst r) = transactions w
  /\ transactionEvents (fst r) = transactionEvents w
  /\ reservations (fst r) = reservations w
  /\ timers (fst r) = timers w.
Proof.
  intro r. subst r.
  assert (Hall :
            Every (fun X c =>
                     writesTransactions c || writesReservations c
                     || setsInterval c = false)
                  (_handleMeterValues message)).
  { unfold _handleMeterValues.
    apply Every_bind; [every_tac |]. intros _. cbv zeta.
    apply Every_bind.
    - apply Every_arrayMap. intro v. apply Every_call. reflexivity.
    - intro promises.
      apply Every_bind; [apply Every_promiseAll |]. every_tac; exact I. }
  repeat split; apply run_keeps; try reflexivity;
    (eapply Every_impl; [| exact Hall]); intros X c Hc;
    apply orb_false_iff in Hc; destruct Hc as [Hc Ht];
    apply orb_false_iff in Hc; destruct Hc as [Htx Hres].
  - apply keeps_transactions, Htx.
  - apply keeps_transactionEvents.
    destruct c; try reflexivity; discriminate Htx.
  - apply keeps_reservations, Hres.
  - apply keeps_timers, Ht.
Qed.

(** X8. Whatever any call does, a TransactionEvent message that carries an
    identity token never has its meter values validated and never has a
    cost computed: no validation call and no tariff lookup is made. *)
Theorem event_with_token_skips_validation_and_cost
    env this message tok w :
  idToken (payload message) = Some tok ->
  let r := run env (_handleTransactionEvent this message) w in
  exists rest,
    trace (fst r) = trace w ++ rest
    /\ Forall neitherValidatesNorPrices rest.
Proof.
  intros Htok r. subst r.
  apply (run_trace_every env
           (fun X c => validates c || looksUpTariff c = false)).
  unfold _handleTransactionEvent. rewrite Htok. every_tac.
Qed.

Lemma event_with_token_skips_validation_and_cost_witness :
  exists rest,
    trace (fst (run Scenario.env0
                  (_handleTransactionEvent (Scenario.config None)
                     (Scenario.event Ended (Some Scenario.token) None
                        (Some [Scenario.reading (ofZ 5)
                                 (Some "tampered")])))
                  Scenario.world0))
    = trace Scenario.world0 ++ rest
    /\ Forall neitherValidatesNorPrices rest.
Proof.
  exact (event_with_token_skips_validation_and_cost Scenario.env0
           (Scenario.config None)
           (Scenario.event Ended (Some Scenario.token) None
              (Some [Scenario.reading (ofZ 5) (Some "tampered")]))
           Scenario.token Scenario.world0 eq_refl).
Defined.

(** X9. Whatever any call does and whatever interval is configured, a
    TransactionEvent message without an identity token never reaches the
    authorization service and never arms a cost-updater timer. *)
Theorem anonymous_event_neither_authorizes_nor_arms env this message w :
  idToken (payload message) = None ->
  let r := run env (_handleTransactionEvent this message) w in
  timers (fst r) = timers w
  /\ exists rest,
       trace (fst r) = trace w ++ rest
       /\ Forall neitherAuthorizesNorArms rest.
Proof.
  intros Htok r. subst r.
  assert (Hall :
            Every (fun X c => authorizes c || setsInterval c = false)
                  (_handleTransactionEvent this message))
    by (unfold _handleTransactionEvent; rewrite Htok; every_tac).
  split.
  - apply run_keeps; [reflexivity |].
    eapply Every_impl; [| exact Hall]. intros X c Hc.
    apply keeps_timers. apply orb_false_iff in Hc. apply Hc.
  - apply (run_trace_every env _ _ w Hall).
Qed.

Lemma anonymous_event_neither_authorizes_nor_arms_witness :
  timers (fst (run Scenario.env0
                 (_handleTransactionEvent
                    (Scenario.config (Some (ofZ 60)))
                    (Scenario.event Started None None None))
                 Scenario.world0))
  = [].
Proof.
  exact (proj1 (anonymous_event_neither_authorizes_nor_arms Scenario.env0
                  (Scenario.config (Some (ofZ 60)))
                  (Scenario.event Started None None None)
                  Scenario.world0 eq_refl)).
Defined.

Ltac run_any :=
  match goal with
  | |- context [run ?e (bind ?p ?f) ?w] =>
      rewrite (run_bind e p f w), ?run_call_any
  end.

(** X10. Whatever any call does, the TransactionEvent handler appends the
    event of the message to the event table at most once and appends
    nothing else to it; when no awaited call fails it appends it exactly
    once. *)
Theorem transactionEvent_recorded_once env this message w :
  let r := run env (_handleTransactionEvent this message) w in
  let recorded :=
    transactionEvents w ++ [(stationId (context message), payload message)] in
  (transactionEvents (fst r) = transactionEvents w
   \/ transactionEvents (fst r) = recorded)
  /\ (reliable env -> transactionEvents (fst r) = recorded).
Proof.
  intros r recorded. subst r.
  unfold _handleTransactionEvent.
  run_any. simpl. run_any. simpl.
  match goal with
  | |- context [fault env unit ?c ?w1] =>
      destruct (fault env unit c w1) as [e |] eqn:Hfault
  end.
  - simpl. split; [left; reflexivity |].
    intro Hrel. rewrite Hrel in Hfault. discriminate Hfault.
  - assert (Hkeep :
              forall p w2,
                Every (fun X c => recordsEvent c = false) p ->
                transactionEvents (fst (run env (p : Prog unit) w2))
                = transactionEvents w2).
    { intros p w2 Hp. apply run_keeps; [reflexivity |].
      eapply Every_impl; [| exact Hp].
      intros X c. apply keeps_transactionEvents. }
    match goal with
    | |- context [run env ?p ?w2] => rewrite (Hkeep p w2) by every_tac
    end.
    simpl. split; [right; reflexivity | intros _; reflexivity].
Qed.

Lemma transactionEvent_recorded_once_witness :
  let message := Scenario.event Updated None None None in
  transactionEvents
    (fst (run Scenario.env0
            (_handleTransactionEvent (Scenario.config None) message)
            Scenario.world0))
  = [("CS1", payload message)].
Proof.
  exact (proj2 (transactionEvent_recorded_once Scenario.env0
                  (Scenario.config None)
                  (Scenario.event Updated None None None)
                  Scenario.world0)
               (fun _ _ _ => eq_refl)).
Defined.

Lemma Forall2_untouched message rs :
  Forall2 (untouchedOrTerminated message) rs rs.
Proof.
  induction rs as [| r rs IH]; constructor; [left; reflexivity | exact IH].
Qed.

Lemma Forall2_updated message rid rs :
  reservationId (payload message) = Some rid ->
  rid <> 0 ->
  Forall2 (untouchedOrTerminated message) rs
    (reservationUpdateAllByQuery
       (transactionId (transactionInfo (payload message))) false rid
       (stationId (context message)) rs).
Proof.
  intros Hrid Hnz.
  induction rs as [| r rs IH]; simpl; constructor; [| exact IH].
  destruct (res_id r =? rid) eqn:Hid; simpl; [| left; reflexivity].
  destruct (String.eqb (res_stationId r) (stationId (context message)))
    eqn:Hst; [| left; reflexivity].
  apply Z.eqb_eq in Hid. apply String.eqb_eq in Hst.
  right. subst rid. repeat split; assumption.
Qed.

(** X11. Whatever any call does, failures included, the TransactionEvent
    handler keeps the number and order of the reservation rows, and changes
    a row only to terminate it: the row has the nonzero reservation id of
    the event and the station of the message.  Reservations of other
    stations and other ids are never changed. *)
Theorem reservations_of_others_untouched env this message w :
  let r := run env (_handleTransactionEvent this message) w in
  Forall2 (untouchedOrTerminated message)
    (reservations w) (reservations (fst r)).
Proof.
  intro r. subst r.
  assert (Hkeep :
            forall p w2,
              Every (fun X c => writesReservations c = false) p ->
              reservations (fst (run env (p : Prog unit) w2))
              = reservations w2).
  { intros p w2 Hp. apply run_keeps; [reflexivity |].
    eapply Every_impl; [| exact Hp].
    intros X c. apply keeps_reservations. }
  destruct (Js.truthyInt (reservationId (payload message))) eqn:Htruthy.
  - destruct (reservationId (payload message)) as [rid |] eqn:Hrid;
      [| discriminate Htruthy].
    assert (Hnz : rid <> 0).
    { simpl in Htruthy. intro Hz. subst rid. discriminate Htruthy. }
    unfold _handleTransactionEvent. rewrite Hrid, Htruthy.
    run_any. cbn [awaited]. cbv beta iota zeta.
    run_any. cbn [awaited]. cbv beta iota zeta.
    match goal with
    | |- context [fault env unit ?c ?w1] =>
        destruct (fault env unit c w1) as [e |]
    end; [cbn [fst reservations setTrace]; apply Forall2_untouched |].
    run_any. cbn [awaited]. cbv beta iota zeta.
    match goal with
    | |- context [fault env unit ?c ?w1] =>
        destruct (fault env unit c w1) as [e |]
    end; [cbn [fst reservations setTrace]; apply Forall2_untouched |].
    match goal with
    | |- context [run env ?p ?w2] => rewrite (Hkeep p w2) by every_tac
    end.
    simpl. apply Forall2_updated; assumption.
  - rewrite Hkeep; [apply Forall2_untouched |].
    unfold _handleTransactionEvent.
    destruct (reservationId (payload message)) as [rid |];
      [rewrite Htruthy |]; every_tac.
Qed.

End HandlerFacts.

(** ** More on the cost calculator *)
Module CostCalculatorFacts.
Import JsNumber Ocpp TransactionsModule Observations Conduct NumberFacts
  ProgFacts CostFacts HandlerFacts.

Lemma transactionUpdate_identity totalKwh whereId txs :
  map identity (transactionUpdate totalKwh whereId txs) = map identity txs.
Proof.
  induction txs as [| t txs IH]; simpl; [reflexivity |].
  rewrite IH. destruct (tx_id t =? whereId); reflexivity.
Qed.

Lemma keeps_identities {X : Type} (c : Cmd X) :
  recordsEvent c = false ->
  Keeps (fun w => map identity (transactions w)) X c.
Proof.
  destruct c; intros H env w; try discriminate H; try reflexivity.
  - simpl. apply transactionUpdate_identity.
  - simpl. destruct (fault env _ _ _); reflexivity.
Qed.

Lemma transactionUpdate_cached totalKwh whereId txs t :
  In t (transactionUpdate totalKwh whereId txs) ->
  tx_id t = whereId ->
  tx_totalKwh t = Some totalKwh.
Proof.
  unfold transactionUpdate. intros Hin Hid.
  apply in_map_iff in Hin. destruct Hin as (t0 & Ht & _).
  destruct (tx_id t0 =? whereId) eqn:Hmatch.
  - subst t. reflexivity.
  - subst t. apply Z.eqb_neq in Hmatch. contradiction.
Qed.

Lemma calculateTotalCost_no_tariff_value env station transactionDbId
    totalKwh w :
  reliable env ->
  findByStationId station w = None ->
  snd (run env (_calculateTotalCost station transactionDbId totalKwh) w)
  = inr (ofZ 0).
Proof.
  intros Hrel Hnone. unfold _calculateTotalCost. run_steps Hrel.
  replace (findByStationId station _) with (@None Tariff)
    by exact (eq_sym Hnone).
  run_steps Hrel. reflexivity.
Qed.

(** X12. Whatever any call does, failures included, the cost calculator
    sends nothing, arms nothing and leaves the reservations, the tariffs,
    the meter values and the event table as they were; in the transaction
    table it keeps every row's database id, station, transaction id and
    active flag, so the only thing it can change is a cached energy
    total. *)
Theorem calculateTotalCost_changes_only_cached_total
    env station transactionDbId totalKwh w :
  let r := run env (_calculateTotalCost station transactionDbId totalKwh) w in
  sent (fst r) = sent w
  /\ timers (fst r) = timers w
  /\ reservations (fst r) = reservations w
  /\ tariffs (fst r) = tariffs w
  /\ meterValues (fst r) = meterValues w
  /\ transactionEvents (fst r) = transactionEvents w
  /\ map identity (transactions (fst r)) = map identity (transactions w).
Proof.
  intro r. subst r.
  assert (Hall :
            Every (fun X c =>
                     sends c || setsInterval c || writesReservations c
                     || writesMeterValues c = false)
                  (_calculateTotalCost station transactionDbId totalKwh))
    by every_tac.
  repeat split;
    [apply (run_keeps env sent) | apply (run_keeps env timers)
    | apply (run_keeps env reservations) | apply (run_keeps env tariffs)
    | apply (run_keeps env meterValues)
    | apply (run_keeps env transactionEvents)
    | apply (run_keeps env (fun w0 => map identity (transactions w0)))];
    try reflexivity;
    (eapply Every_impl; [| exact Hall]); intros X c Hc;
    repeat (apply orb_false_iff in Hc; destruct Hc as [Hc ?]).
  - apply keeps_sent; assumption.
  - apply keeps_timers; assumption.
  - apply keeps_reservations; assumption.
  - apply keeps_tariffs.
  - apply keeps_meterValues; assumption.
  - apply keeps_transactionEvents.
    destruct c; try reflexivity; discriminate.
  - apply keeps_identities.
    destruct c; try reflexivity; discriminate.
Qed.

(** X13. The derived total is a cache that later calls can use.  After a
    call without a total has derived a truthy total at a station with a
    tariff, every transaction row with that database id holds the total,
    and a second call that is given the total returns the same cost and
    writes nothing. *)
Theorem calculateTotalCost_uses_cached_total
    env station transactionDbId tariff w :
  reliable env ->
  findByStationId station w = Some tariff ->
  let derived :=
    getTotalKwh env
      (readAllMeterValuesByTransactionDataBaseId transactionDbId w) in
  truthy derived = true ->
  let first := run env (_calculateTotalCost station transactionDbId None) w in
  let second :=
    run env (_calculateTotalCost station transactionDbId (Some derived))
      (fst first) in
  (forall t, In t (transactions (fst first)) ->
             tx_id t = transactionDbId ->
             tx_totalKwh t = Some derived)
  /\ snd second = snd first
  /\ transactions (fst second) = transactions (fst first).
Proof.
  intros Hrel Htariff derived Htruthy first second.
  destruct (calculateTotalCost_derived env station transactionDbId None
              tariff w Hrel Htariff eq_refl) as (Hcost & _ & Htx & _).
  fold derived in Hcost, Htx. fold first in Hcost, Htx.
  assert (Htariff1 : findByStationId station (fst first) = Some tariff).
  { unfold findByStationId in *.
    replace (tariffs (fst first)) with (tariffs w); [exact Htariff |].
    symmetry. subst first. apply run_keeps; [reflexivity |].
    apply Every_impl with (P := fun X c => sends c = false);
      [intros X c _; apply keeps_tariffs | every_tac]. }
  destruct (calculateTotalCost_supplied env station transactionDbId derived
              tariff (fst first) Hrel Htariff1 Htruthy)
    as (Hcost2 & _ & Htx2 & _).
  fold second in Hcost2, Htx2.
  split; [| split].
  - intros t Hin Hid. rewrite Htx in Hin.
    exact (transactionUpdate_cached _ _ _ t Hin Hid).
  - rewrite Hcost2, Hcost. reflexivity.
  - exact Htx2.
Qed.

Lemma calculateTotalCost_uses_cached_total_witness :
  let first :=
    run Scenario.env0 (_calculateTotalCost "CS1" 42 None) Scenario.world0 in
  snd (run Scenario.env0
         (_calculateTotalCost "CS1" 42 (Some (decimal 125 1))) (fst first))
  = snd first.
Proof.
  exact (proj1 (proj2
           (calculateTotalCost_uses_cached_total Scenario.env0 "CS1" 42
              {| tariff_id := 1; tariff_stationId := "CS1";
                 pricePerKwh := decimal 30 2 |}
              Scenario.world0 (fun _ _ _ => eq_refl) eq_refl eq_refl))).
Defined.

(** X3. A tick for an active transaction at a station without a tariff
    still sends one CostUpdated request, with a total cost of 0, and writes
    no table. *)
Theorem tick_without_tariff env t transaction w :
  reliable env ->
  readTransactionByStationIdAndTransactionId
    (timer_stationId t) (timer_transactionId t) w = Some transaction ->
  tx_isActive transaction = true ->
  findByStationId (timer_stationId t) w = None ->
  let r := run env (costUpdatedTick t) w in
  snd r = inr tt
  /\ sent (fst r) =
       sent w ++
       [CallCostUpdated (timer_stationId t) (timer_tenantId t)
          {| cu_totalCost := ofZ 0;
             cu_transactionId := tx_transactionId transaction |}]
  /\ transactions (fst r) = transactions w.
Proof.
  intros Hrel Hread Hactive Htariff r. subst r.
  unfold costUpdatedTick. run_steps Hrel.
  match goal with
  | |- context [readTransactionByStationIdAndTransactionId ?s ?i ?w1] =>
      change (readTransactionByStationIdAndTransactionId s i w1)
        with (readTransactionByStationIdAndTransactionId s i w)
  end.
  rewrite Hread, Hactive. unfold _calculateTotalCost. run_steps Hrel.
  replace (findByStationId (timer_stationId t) _) with (@None Tariff)
    by exact (eq_sym Htariff).
  run_steps Hrel. repeat split; reflexivity.
Qed.

Lemma tick_without_tariff_witness :
  let w :=
    setTransactions
      [{| tx_id := 7; tx_stationId := "CS2"; tx_transactionId := "T2";
          tx_isActive := true; tx_totalKwh := None |}]
      Scenario.world0 in
  sent (fst (run Scenario.env0
               (costUpdatedTick
                  {| timer_stationId := "CS2"; timer_transactionId := "T2";
                     timer_tenantId := "tenant";
                     timer_delay := ofZ 60000 |})
               w))
  = [CallCostUpdated "CS2" "tenant"
       {| cu_totalCost := ofZ 0; cu_transactionId := "T2" |}].
Proof.
  exact (proj1 (proj2
           (tick_without_tariff Scenario.env0
              {| timer_stationId := "CS2"; timer_transactionId := "T2";
                 timer_tenantId := "tenant"; timer_delay := ofZ 60000 |}
              {| tx_id := 7; tx_stationId := "CS2";
                 tx_transactionId := "T2"; tx_isActive := true;
                 tx_totalKwh := None |}
              (setTransactions
                 [{| tx_id := 7; tx_stationId := "CS2";
                     tx_transactionId := "T2"; tx_isActive := true;
                     tx_totalKwh := None |}]
                 Scenario.world0)
              (fun _ _ _ => eq_refl) eq_refl eq_refl eq_refl))).
Defined.

End CostCalculatorFacts.

(** ** Events without an identity token *)
Module AnonymousFacts.
Import JsNumber Ocpp TransactionsModule Observations Conduct NumberFacts
  ProgFacts CostFacts HandlerFacts CostCalculatorFacts.

(** Pass over the reservation step: the outbox and the tariffs are as
    before, and the transaction table is the one the create-or-update
    left. *)
Ltac over_reservation_step Hrel w3 :=
  match goal with
  | |- context [run ?e (bind ?p ?f) ?w2] =>
      let u := fresh "u" in
      let Hu := fresh "Hu" in
      destruct (run_returns e p w2 Hrel) as [u Hu];
      [nothrow_tac
      | rewrite (run_bind_returned e p f w2 u Hu);
        let Hs := fresh "Hsent" in
        assert (Hs : sent (fst (run e p w2)) = sent w2)
          by keeps_tac @keeps_sent;
        let Ht := fresh "Htx" in
        assert (Ht : transactions (fst (run e p w2)) = transactions w2)
          by keeps_tac @keeps_transactions;
        let Hr := fresh "Htariffs" in
        assert (Hr : tariffs (fst (run e p w2)) = tariffs w2)
          by (apply run_keeps; [reflexivity |];
              apply Every_impl with (P := fun X c => sends c = false);
              [intros ? ? _; apply keeps_tariffs | every_tac]);
        simpl in Hs, Ht, Hr;
        clear Hu; set (w3 := fst (run e p w2)) in *; clearbody w3]
  end.

Ltac tracked_transaction env message w w3 Htx :=
  match goal with
  | |- context [readTransactionByStationIdAndTransactionId ?s ?i
                  (setTrace ?t w3)] =>
      change (readTransactionByStationIdAndTransactionId s i
                (setTrace t w3))
        with (find (matchesTransaction s i) (transactions w3));
      rewrite Htx;
      change (find (matchesTransaction s i)
                (upsertTransaction env (payload message) s (transactions w)))
        with (trackedAfter env message w)
  end.

Ltac validation_step Hrel :=
  match goal with
  | |- context [meterValue ?ev] =>
      destruct (meterValue ev) as [values |];
      [run_step Hrel; run_step Hrel; simpl;
       match goal with
       | |- context [validateMeterValues ?e ?s ?vs] =>
           destruct (validateMeterValues e s vs)
       end; simpl |];
      run_steps Hrel
  end.

(** X14. A TransactionEvent message without an identity token is answered
    with the empty response, without a total cost, whenever it is a Started
    event or no tracked transaction is found for it after the
    create-or-update, whatever its type: the handler returns, and the
    response is the one message it sends. *)
Theorem anonymous_event_without_cost env this message w :
  reliable env ->
  idToken (payload message) = None ->
  eventType (payload message) = Started
  \/ trackedAfter env message w = None ->
  let r := run env (_handleTransactionEvent this message) w in
  snd r = inr tt
  /\ sent (fst r) =
       sent w ++ [CallResult (context message)
                    (TransactionEventResult emptyResponse)].
Proof.
  intros Hrel Htok Hcase r. subst r.
  unfold _handleTransactionEvent. run_steps Hrel.
  over_reservation_step Hrel w3.
  rewrite Htok. run_steps Hrel.
  tracked_transaction env message w w3 Htx.
  destruct Hcase as [Hstarted | Hnone].
  - rewrite Hstarted. simpl. run_steps Hrel.
    destruct (trackedAfter env message w); run_steps Hrel;
      validation_step Hrel; rewrite Hsent; split; reflexivity.
  - rewrite Hnone.
    destruct (eventType (payload message)); simpl; run_steps Hrel;
      validation_step Hrel; rewrite Hsent; split; reflexivity.
Qed.

Lemma anonymous_event_without_cost_witness :
  let message :=
    {| context := {| stationId := "CS1"; tenantId := "tenant";
                     correlationId := "c-2" |};
       payload := payload (Scenario.event Started None None None) |} in
  sent (fst (run Scenario.env0
               (_handleTransactionEvent (Scenario.config None) message)
               Scenario.world0))
  = [CallResult (context message) (TransactionEventResult emptyResponse)].
Proof.
  exact (proj2
           (anonymous_event_without_cost Scenario.env0
              (Scenario.config None)
              {| context := {| stationId := "CS1"; tenantId := "tenant";
                               correlationId := "c-2" |};
                 payload :=
                   payload (Scenario.event Started None None None) |}
              Scenario.world0 (fun _ _ _ => eq_refl) eq_refl
              (or_introl eq_refl))).
Defined.

(** X15. An Ended event without an identity token whose transaction record
    is found is answered with a total cost, whether the record is active or
    not: 0 when the station has no tariff, and
    [_roundCost (totalKwh * pricePerKwh)] when it has one and the record
    holds a truthy total. *)
Theorem anonymous_ended_event_carries_cost env this message t w :
  reliable env ->
  idToken (payload message) = None ->
  eventType (payload message) = Ended ->
  trackedAfter env message w = Some t ->
  let station := stationId (context message) in
  let r := run env (_handleTransactionEvent this message) w in
  exists cost,
    snd r = inr tt
    /\ sent (fst r) =
         sent w ++ [CallResult (context message)
                      (TransactionEventResult
                         (withTotalCost cost emptyResponse))]
    /\ (findByStationId station w = None -> cost = ofZ 0)
    /\ (forall tariff k,
          findByStationId station w = Some tariff ->
          tx_totalKwh t = Some k ->
          truthy k = true ->
          cost = _roundCost (mul k (pricePerKwh tariff))).
Proof.
  intros Hrel Htok Hended Htracked station r. subst r station.
  unfold _handleTransactionEvent. run_steps Hrel.
  over_reservation_step Hrel w3.
  rewrite Htok. run_steps Hrel.
  tracked_transaction env message w w3 Htx.
  rewrite Htracked, Hended. simpl. run_steps Hrel.
  match goal with
  | |- context [run env (bind (_calculateTotalCost ?s ?i ?k) ?g) ?w4] =>
      destruct (run_returns env (_calculateTotalCost s i k) w4 Hrel)
        as [cost Hcost];
      [nothrow_tac |];
      rewrite (run_bind_returned env (_calculateTotalCost s i k) g w4
                 cost Hcost);
      assert (Hsent5 :
                sent (fst (run env (_calculateTotalCost s i k) w4))
                = sent w3)
        by (transitivity (sent w4); [keeps_tac @keeps_sent | reflexivity]);
      assert (Hfind :
                findByStationId s w4 = findByStationId s w)
        by (unfold findByStationId; simpl; rewrite Htariffs; reflexivity);
      pose proof (calculateTotalCost_no_tariff_value env s i k w4 Hrel)
        as Hzero;
      pose proof (fun tariff k0 =>
                    calculateTotalCost_supplied env s i k0 tariff w4 Hrel)
        as Hsupplied;
      rewrite Hfind in Hzero;
      rewrite Hcost in Hzero;
      set (w5 := fst (run env (_calculateTotalCost s i k) w4)) in *
  end.
  exists cost. run_steps Hrel. validation_step Hrel;
    (split; [reflexivity |]);
    (split; [rewrite Hsent5, Hsent; reflexivity |]);
    (split;
     [intro Hnone; specialize (Hzero Hnone);
       injection Hzero as Hzero; rewrite Hzero; reflexivity
     | intros tariff k Htariff Hk Htruthy;
       destruct (Hsupplied tariff k) as (Hvalue & _);
       [rewrite Hfind; exact Htariff | exact Htruthy |];
       rewrite Hk in Hcost; rewrite Hcost in Hvalue;
       injection Hvalue as Hvalue; rewrite Hvalue; reflexivity]).
Qed.

Lemma anonymous_ended_event_carries_cost_witness :
  let w :=
    setTransactions
      [{| tx_id := 42; tx_stationId := "CS1"; tx_transactionId := "T1";
          tx_isActive := true; tx_totalKwh := Some (ofZ 10) |}]
      Scenario.world0 in
  exists cost,
    sent (fst (run Scenario.env0
                 (_handleTransactionEvent (Scenario.config None)
                    (Scenario.event Ended None None None))
                 w))
    = [CallResult Scenario.ctx0
         (TransactionEventResult (withTotalCost cost emptyResponse))]
    /\ cost = decimal 300 2.
Proof.
  destruct (anonymous_ended_event_carries_cost Scenario.env0
              (Scenario.config None)
              (Scenario.event Ended None None None)
              {| tx_id := 42; tx_stationId := "CS1";
                 tx_transactionId := "T1"; tx_isActive := false;
                 tx_totalKwh := Some (ofZ 10) |}
              (setTransactions
                 [{| tx_id := 42; tx_stationId := "CS1";
                     tx_transactionId := "T1"; tx_isActive := true;
                     tx_totalKwh := Some (ofZ 10) |}]
                 Scenario.world0)
              (fun _ _ _ => eq_refl) eq_refl eq_refl eq_refl)
    as (cost & _ & Hsent & _ & Hcost).
  exists cost. split; [exact Hsent |].
  exact (Hcost {| tariff_id := 1; tariff_stationId := "CS1";
                  pricePerKwh := decimal 30 2 |}
           (ofZ 10) eq_refl eq_refl eq_refl).
Defined.

End AnonymousFacts.

(** ** Ranges of security events *)
Module SecurityEventRangeFacts.
Import SecurityEventRepository Observations Conduct SecurityEventFacts.

Lemma withinBounds_admits wide_from wide_to from to t :
  lowerAdmits wide_from from ->
  upperAdmits wide_to to ->
  withinBounds from to t = true ->
  withinBounds wide_from wide_to t = true.
Proof.
  unfold lowerAdmits, upperAdmits, withinBounds.
  destruct wide_from, wide_to, from, to; intros Hl Hu Hin;
    try contradiction; try reflexivity;
    rewrite ?andb_true_iff, ?Z.leb_le in *; lia.
Qed.

(** X16. Bounds the wrong way round select nothing: when both bounds are
    given and [to] is before [from], [readByStationIdAndTimestamps] returns
    no event, for every station and table. *)
Theorem readByStationIdAndTimestamps_inverted_bounds
    toISOString instantOf station lo hi table :
  rendered toISOString instantOf (Some lo) ->
  rendered toISOString instantOf (Some hi) ->
  hi < lo ->
  readByStationIdAndTimestamps toISOString instantOf station
    (Some lo) (Some hi) table = [].
Proof.
  intros Hfrom Hto Hlt.
  unfold readByStationIdAndTimestamps, readAllByQuery.
  rewrite (filter_ext _ (fun e => String.eqb (se_stationId e) station
                                  && withinBounds (Some lo) (Some hi)
                                       (se_timestamp e)))
    by (intro e;
        rewrite (timestampSelected_withinBounds _ _ _ _ e Hfrom Hto);
        reflexivity).
  induction table as [| e table IH]; [reflexivity |].
  cbn [filter].
  replace (withinBounds (Some lo) (Some hi) (se_timestamp e)) with false.
  - rewrite andb_false_r. exact IH.
  - symmetry. unfold withinBounds. apply andb_false_iff.
    destruct (Z_le_gt_dec lo (se_timestamp e)) as [Hle | Hgt].
    + right. apply Z.leb_gt. lia.
    + left. apply Z.leb_gt. lia.
Qed.

Lemma readByStationIdAndTimestamps_inverted_bounds_witness :
  readByStationIdAndTimestamps Iso8601.toISOString Iso8601.instantOf
    "CS1" (Some 1714561200000) (Some 1714557600000)
    Iso8601.securityEvents = [].
Proof.
  apply readByStationIdAndTimestamps_inverted_bounds.
  - split; [vm_compute; discriminate | vm_compute; reflexivity].
  - split; [vm_compute; discriminate | vm_compute; reflexivity].
  - reflexivity.
Defined.

(** X17. Widening the bounds never loses an event: every event returned
    for the bounds [from] and [to] is also returned, for the same station
    and table, for bounds that admit at least as much, and in particular
    when a bound is left out. *)
Theorem readByStationIdAndTimestamps_widening
    toISOString instantOf station from to wide_from wide_to table e :
  rendered toISOString instantOf from ->
  rendered toISOString instantOf to ->
  rendered toISOString instantOf wide_from ->
  rendered toISOString instantOf wide_to ->
  lowerAdmits wide_from from ->
  upperAdmits wide_to to ->
  In e (readByStationIdAndTimestamps toISOString instantOf station
          from to table) ->
  In e (readByStationIdAndTimestamps toISOString instantOf station
          wide_from wide_to table).
Proof.
  intros Hf Ht Hwf Hwt Hl Hu.
  unfold readByStationIdAndTimestamps, readAllByQuery.
  rewrite !filter_In.
  rewrite (timestampSelected_withinBounds _ _ _ _ e Hf Ht),
    (timestampSelected_withinBounds _ _ _ _ e Hwf Hwt).
  rewrite !andb_true_iff.
  intros (Hin & Hst & Hb). split; [exact Hin |]. split; [exact Hst |].
  exact (withinBounds_admits _ _ _ _ _ Hl Hu Hb).
Qed.

Lemma readByStationIdAndTimestamps_widening_witness :
  In {| se_stationId := "CS1"; se_type := "SettingSystemTime";
        se_timestamp := 1714557600000; se_techInfo := None |}
     (readByStationIdAndTimestamps Iso8601.toISOString Iso8601.instantOf
        "CS1" None (Some 1714561200000) Iso8601.securityEvents).
Proof.
  apply (readByStationIdAndTimestamps_widening
           Iso8601.toISOString Iso8601.instantOf "CS1"
           (Some 1714557600000) (Some 1714557600000)
           None (Some 1714561200000) Iso8601.securityEvents).
  - split; [vm_compute; discriminate | vm_compute; reflexivity].
  - split; [vm_compute; discriminate | vm_compute; reflexivity].
  - exact I.
  - split; [vm_compute; discriminate | vm_compute; reflexivity].
  - exact I.
  - vm_compute. discriminate.
  - vm_compute. left. reflexivity.
Defined.

End SecurityEventRangeFacts.

(** ** Inserts that fail *)
Module InsertFacts.
Import JsNumber Ocpp TransactionsModule Observations Conduct ProgFacts.






End InsertFacts.
